(** * Nezha dashboard control plane: handlers of the controller and main packages

    A shallow embedding of the request handlers in
    [cmd/dashboard/controller/member_api.go],
    [cmd/dashboard/controller/common_page.go] and of the dashboard's [main]
    package (protocol multiplexer and the report-host-info fan-out), with the
    properties of the agent control plane proved about them.

    The process-wide registries of package [singleton] are fields of one
    [World] record; every call that leaves the process (database, task stream,
    scheduler engine, websocket, HTTP response) is appended to the world's
    trace, and the result of such a call is read from an [Env] whose answers
    may depend on the whole history so far. *)

From Stdlib Require Import ZArith NArith String Ascii List Lia Bool.
From stdpp Require Import base option gmap strings list fin_maps pretty.

Local Open Scope string_scope.
Local Open Scope N_scope.
Local Open Scope list_scope.

(** Go's fixed-width unsigned integers.  No handler does arithmetic on them,
    they are only compared and used as map keys. *)
Abbreviation uint64 := N (only parsing).
Abbreviation uint8 := N (only parsing).

(** A Go [error] value is observed through its [Error()] text only;
    [None] is the nil error. *)
Abbreviation error := (option string) (only parsing).

(** ** Package strconv (Go standard library), base 10 and 64 bits *)
Module strconv.

Inductive NumError := ErrSyntax | ErrRange.

Definition maxUint64 : N := 18446744073709551615.

(** [case '0' <= c && c <= '9': d = c - '0'], every other byte ends in a
    syntax error in base 10 (letters give a digit [>= base]). *)
Definition digit (c : ascii) : option N :=
  let b := N_of_ascii c in
  if (48 <=? b) && (b <=? 57) then Some (b - 48) else None.

(** The loop of [ParseUint] over the bytes of [s], with accumulator [n]. *)
Fixpoint ParseUint_loop (s : string) (n : N) : N * option NumError :=
  match s with
  | EmptyString => (n, None)
  | String c rest =>
      match digit c with
      | None => (0, Some ErrSyntax)
      | Some d =>
          let cutoff := maxUint64 / 10 + 1 in
          if cutoff <=? n then (maxUint64, Some ErrRange)
          else
            let n10 := (n * 10) mod 2 ^ 64 in
            let n1 := (n10 + d) mod 2 ^ 64 in
            if (n1 <? n10) || (maxUint64 <? n1) then (maxUint64, Some ErrRange)
            else ParseUint_loop rest n1
      end
  end.

(** [strconv.ParseUint(s, 10, 64)] *)
Definition ParseUint (s : string) : N * option NumError :=
  match s with
  | EmptyString => (0, Some ErrSyntax)
  | _ => ParseUint_loop s 0
  end.

(** [strconv.ParseInt(s, 10, 0)] on a 64-bit platform. *)
Definition ParseInt (s : string) : Z * option NumError :=
  match s with
  | EmptyString => (0%Z, Some ErrSyntax)
  | String c rest =>
      let neg := Ascii.eqb c "-"%char in
      let body := if Ascii.eqb c "+"%char || neg then rest else s in
      let '(un, err) := ParseUint body in
      match err with
      | Some ErrSyntax => (0%Z, err)
      | _ =>
          let cutoff := 2 ^ 63 in
          if negb neg && (cutoff <=? un) then (Z.of_N (cutoff - 1), Some ErrRange)
          else if neg && (cutoff <? un) then (- Z.of_N cutoff, Some ErrRange)%Z
          else (if neg then - Z.of_N un else Z.of_N un, None)%Z
      end
  end.

(** The fast path of [Atoi] for strings shorter than 19 bytes. *)
Fixpoint Atoi_fast_loop (s : string) (n : Z) : option Z :=
  match s with
  | EmptyString => Some n
  | String c rest =>
      let ch := (N_of_ascii c + 256 - 48) mod 256 in
      if 9 <? ch then None else Atoi_fast_loop rest (n * 10 + Z.of_N ch)%Z
  end.

(** [strconv.Atoi(s)] with a 64-bit [int]. *)
Definition Atoi (s : string) : Z * option NumError :=
  let sLen := String.length s in
  if ((0 <? sLen) && (sLen <? 19))%nat then
    match s with
    | EmptyString => (0%Z, Some ErrSyntax)
    | String c rest =>
        let signed := Ascii.eqb c "-"%char || Ascii.eqb c "+"%char in
        let body := if signed then rest else s in
        if signed && (String.length body <? 1)%nat then (0%Z, Some ErrSyntax)
        else
          match Atoi_fast_loop body 0 with
          | None => (0%Z, Some ErrSyntax)
          | Some n => (if Ascii.eqb c "-"%char then - n else n, None)%Z
          end
    end
  else ParseInt s.

(** The conversion [uint64(i)] of a 64-bit [int]. *)
Definition uint64_of_int (i : Z) : N := Z.to_N (i mod 2 ^ 64).

End strconv.

(** ** Package net/http (Go standard library) *)
Module http.

Definition StatusOK : N := 200.
Definition StatusBadRequest : N := 400.

(** [http.Header] maps a canonical header name to its values; of
    [http.Request] the multiplexer reads the header and [URL.Path] only. *)
Record Request := mkRequest {
  Header : gmap string (list string);
  URL_Path : string
}.

(** [Header.Get(key)]: the first value stored under [key], or the empty
    string.  The one key the dashboard asks for, [Content-Type], is already
    in canonical form. *)
Definition Header_Get (h : gmap string (list string)) (key : string) : string :=
  match h !! key with
  | Some (v :: _) => v
  | _ => ""
  end.

End http.

(** ** Packages model and proto: the records the handlers touch *)
Module model.

(** The task kinds sent by these handlers.  Their numeric values are
    declared elsewhere in package [model] and are never inspected. *)
Inductive TaskType := TaskTypeUpgrade | TaskTypeReportHostInfo | TaskTypeFM.

Module User.
Record t := mk { ID : uint64 }.
End User.

Module ApiToken.
Record t := mk { UserID : uint64; Token : string; Note : string }.
End ApiToken.

(** [TaskStream] is the agent's open command stream, [None] when the
    interface value is nil. *)
Module Server.
Record t := mk { ID : uint64; TaskStream : option N }.
End Server.

Module Cron.
Record t := mk {
  ID : uint64;
  Name : string;
  TaskType : uint8;
  Scheduler : string;
  Command : string;
  Servers : list uint64;
  ServersRaw : string;
  Cover : uint8;
  PushSuccessful : bool;
  CronJobID : Z
}.
(** [var cr model.Cron] *)
Definition zero : t := mk 0 "" 0 "" "" [] "" 0 false 0%Z.
Definition with_ID (id : uint64) (c : t) : t :=
  mk id (Name c) (TaskType c) (Scheduler c) (Command c) (Servers c)
     (ServersRaw c) (Cover c) (PushSuccessful c) (CronJobID c).
Definition with_CronJobID (j : Z) (c : t) : t :=
  mk (ID c) (Name c) (TaskType c) (Scheduler c) (Command c) (Servers c)
     (ServersRaw c) (Cover c) (PushSuccessful c) j.
End Cron.

(** [model.Response]; [Result] is only ever a [map[string]string] here. *)
Module Response.
Record t := mk { Code : N; Message : string; Result : list (string * string) }.
End Response.

End model.

Module proto.
(** [Type] is spelled [Type_]; the payload [Data] is opaque to the core. *)
Record Task := mkTask { Type_ : model.TaskType; Data : string }.
End proto.

(** ** What a handler does to the outside, in order *)

Inductive Mutex := ApiLock | ServerLock | CronLock.

Inductive Table := T_ApiToken | T_NAT | T_Monitor | T_MonitorHistory | T_Cron | T_AlertRule.

Inductive DBArg := ArgString (s : string) | ArgUint (n : uint64).

(** The calls on [singleton.DB] (gorm) made by the handlers. *)
Inductive DBCall :=
| DB_Create_ApiToken (t : model.ApiToken.t)
| DB_Unscoped_Delete (tbl : Table) (query : string) (arg : DBArg)
| DB_Begin
| Tx_Create (cr : model.Cron.t)
| Tx_Save (cr : model.Cron.t)
| Tx_Commit
| Tx_Rollback.

(** Calls into the session handler [rpc.NezhaHandlerSingleton]. *)
Inductive RPCCall :=
| CallCreateStream (streamId : string)
| CallGetStream (streamId : string)
| CallCloseStream (streamId : string)
| CallUserConnected (streamId : string) (err : error)
| CallStartStream (streamId : string) (timeoutSeconds : N).

(** Callbacks of package [singleton], defined elsewhere in the repository. *)
Inductive SingletonCall :=
| OnNATUpdate
| OnMonitorDelete (id : uint64)
| OnDeleteAlert (id : uint64).

(** One event per call that leaves the handler: lock operations, database
    calls, sends on a task stream, calls on the scheduler engine, on the
    session handler and on package [singleton], websocket operations and the
    replies.  [EvCronsDelete] and [EvCronsStore] mark the two statements that
    change the job registry, [delete(singleton.Crons, id)] and
    [singleton.Crons[id] = &cr], so that their place among the calls on the
    engine can be read off the trace.  [EvGoPing] marks the start of the
    keep-alive goroutine. *)
Inductive Event :=
| EvLock (m : Mutex)
| EvUnlock (m : Mutex)
| EvRLock (m : Mutex)
| EvRUnlock (m : Mutex)
| EvDB (c : DBCall) (err : error)
| EvSend (stream : N) (t : proto.Task) (err : error)
| EvCronAddFunc (spec : string) (err : error)
| EvCronRemove (id : Z)
| EvCronsDelete (id : uint64)
| EvCronsStore (id : uint64)
| EvRPC (c : RPCCall)
| EvSingleton (c : SingletonCall)
| EvUpgrade (err : error)
| EvWsClose
| EvGoPing
| EvSleep (seconds : N)
| EvJSON (status : N) (r : model.Response.t)
| EvHTML (status : N) (name : string) (data : list (string * string)).

(** ** The scheduler engine (github.com/robfig/cron/v3) behind [singleton.Cron]

    [AddFunc] parses the schedule; on a parse error it returns [(0, err)] and
    registers nothing, otherwise the job is stored under the next entry ID
    (the first one is 1).  [Remove] drops the entry when present. *)
Module cron.

Record Cron := mk {
  entries : gmap Z (string * model.Cron.t);
  nextID : Z
}.

Definition AddFunc (parse : string → error) (spec : string) (job : model.Cron.t)
    (c : Cron) : (Z * error) * Cron :=
  match parse spec with
  | Some e => ((0%Z, Some e), c)
  | None =>
      let id := (nextID c + 1)%Z in
      ((id, None), mk (<[id := (spec, job)]> (entries c)) id)
  end.

Definition Remove (id : Z) (c : Cron) : Cron :=
  mk (delete id (entries c)) (nextID c).

End cron.

(** ** The process-wide state *)

(** The states of an interactive session before it is closed; a closed
    session has no record. *)
Inductive SessionState := Created | AgentAttached | UserAttached | Relaying.

(** The registries of package [singleton] ([ApiTokenList],
    [UserIDToApiTokenList], [ServerList], [Crons], the engine [Cron]), the
    session table of [rpc.NezhaHandlerSingleton], and the trace of external
    calls made so far (oldest first).  [ServerList] and [Crons] hold
    pointers: a stored [None] is a nil pointer, which reads the same as a
    missing key. *)
Record World := mkWorld {
  ApiTokenList : gmap string model.ApiToken.t;
  UserIDToApiTokenList : gmap uint64 (list string);
  ServerList : gmap uint64 (option model.Server.t);
  Crons : gmap uint64 (option model.Cron.t);
  Cron : cron.Cron;
  ioStreams : gmap string SessionState;
  trace : list Event
}.

Definition set_tokens (a : gmap string model.ApiToken.t)
    (u : gmap uint64 (list string)) (w : World) : World :=
  mkWorld a u (ServerList w) (Crons w) (Cron w) (ioStreams w) (trace w).

Definition set_Crons (c : gmap uint64 (option model.Cron.t)) (w : World) : World :=
  mkWorld (ApiTokenList w) (UserIDToApiTokenList w) (ServerList w) c (Cron w)
          (ioStreams w) (trace w).

Definition set_Cron (c : cron.Cron) (w : World) : World :=
  mkWorld (ApiTokenList w) (UserIDToApiTokenList w) (ServerList w) (Crons w) c
          (ioStreams w) (trace w).

Definition set_ioStreams (s : gmap string SessionState) (w : World) : World :=
  mkWorld (ApiTokenList w) (UserIDToApiTokenList w) (ServerList w) (Crons w) (Cron w)
          s (trace w).

(** Append one event to the trace. *)
Definition log (e : Event) (w : World) : World :=
  mkWorld (ApiTokenList w) (UserIDToApiTokenList w) (ServerList w) (Crons w) (Cron w)
          (ioStreams w) (trace w ++ [e]).

(** A result of a fallible call that also returns a value. *)
Inductive result (A : Type) := Ok (a : A) | Err (e : string).
Arguments Ok {A} a.
Arguments Err {A} e.

(** ** The environment: what the collaborators answer

    Every answer may depend on the trace so far, so the same call can fail
    once and succeed later. *)
Record Env := mkEnv {
  (** the error of a database call *)
  db_error : list Event → DBCall → error;
  (** the primary key the database assigns to a created cron row *)
  db_assigned_id : list Event → uint64;
  (** the error of [TaskStream.Send] on an open stream *)
  send_error : list Event → N → proto.Task → error;
  (** [utils.GenerateRandomString(n)] *)
  GenerateRandomString : list Event → N → result string;
  (** [uuid.GenerateUUID()] *)
  GenerateUUID : list Event → result string;
  (** the schedule parser of the scheduler engine *)
  parse_schedule : string → error;
  (** [utils.Json.Unmarshal] into a [[]uint64] *)
  Unmarshal_uint64s : string → result (list uint64);
  (** [utils.Json.Marshal(&model.TaskFM{StreamID: id})] *)
  Marshal_TaskFM : string → string;
  (** [upgrader.Upgrade] *)
  ws_upgrade_error : list Event → error;
  (** [rpc.NezhaHandlerSingleton.UserConnected] *)
  user_connected_error : list Event → string → error;
  (** the order in which [range singleton.ServerList] hands out the entries
      of the map; Go leaves it unspecified, so it is any enumeration of the
      entries *)
  range_ServerList : gmap uint64 (option model.Server.t)
                     → list (uint64 * option model.Server.t);
  (** the keep-alive goroutine of [fm] assigns the result of every ping to
      the [err] of the handler itself: [Some e] when such an assignment of
      [e] lands between the handler's own assignment of the result of
      [UserConnected] and its test of [err], [None] when none does *)
  keepalive_write : list Event → option error
}.

(** ** Handler bodies: state, early return, panic and [defer]

    A body runs on a frame: the world and the stack of deferred calls of the
    running function.  [call] runs a body to its end and then the deferred
    calls, last deferred first, as Go does on return and on panic alike. *)
Record Frame := mkFrame { world : World; deferred : list (World → World) }.

Inductive Flow (A : Type) := Next (a : A) | Returned | Panicked.
Arguments Next {A} a.
Arguments Returned {A}.
Arguments Panicked {A}.

Definition M (A : Type) : Type := Frame → Flow A * Frame.

#[global] Instance M_ret : MRet M := λ A a f, (Next a, f).

#[global] Instance M_bind : MBind M := λ A B k m f,
  match m f with
  | (Next a, f') => k a f'
  | (Returned, f') => (Returned, f')
  | (Panicked, f') => (Panicked, f')
  end.

(** [return] in the middle of a handler *)
Definition return_ {A} : M A := λ f, (Returned, f).

(** a run-time panic (nil dereference) *)
Definition panic {A} : M A := λ f, (Panicked, f).

Definition defer (d : World → World) : M unit :=
  λ f, (Next tt, mkFrame (world f) (d :: deferred f)).

Definition get : M World := λ f, (Next (world f), f).

Definition modify (g : World → World) : M unit :=
  λ f, (Next tt, mkFrame (g (world f)) (deferred f)).

Definition emit (e : Event) : M unit := modify (log e).

(** Ask the environment, showing it the trace so far. *)
Definition ask {A} (q : list Event → A) : M A := λ f, (Next (q (trace (world f))), f).

Definition run_deferred (ds : list (World → World)) (w : World) : World :=
  fold_left (λ w d, d w) ds w.

Definition call (body : M unit) (w : World) : World :=
  let '(_, f) := body (mkFrame w []) in run_deferred (deferred f) (world f).

(** Whether the body ended in a panic. *)
Definition panics (body : M unit) (w : World) : bool :=
  match body (mkFrame w []) with
  | (Panicked, _) => true
  | _ => false
  end.

(** [c.JSON(status, model.Response{...})] *)
Definition JSON (status : N) (code : N) (message : string)
    (res : list (string * string)) : M unit :=
  emit (EvJSON status (model.Response.mk code message res)).

(** Reading through a map of pointers: a missing key gives nil. *)
Definition deref {A} (m : gmap uint64 (option A)) (k : uint64) : option A :=
  default None (m !! k).

(** [server != nil && server.TaskStream != nil]: the stream to send on. *)
Definition stream_of (server : option model.Server.t) : option N :=
  match server with
  | Some srv => model.Server.TaskStream srv
  | None => None
  end.

(** ** The session handler [rpc.NezhaHandlerSingleton]

    It is defined in package [service/rpc]; the handlers below only call
    it.  The calls are recorded in the trace, and the session table follows
    the session contract of the specification. *)
Module rpc.

(** Modelled from the spec: [CreateStream] is missing from the sources;
    "CreateSession: allocates a fresh identifier and stores it in Created
    state with no attachments". *)
Definition CreateStream (streamId : string) : M unit :=
  emit (EvRPC (CallCreateStream streamId));;
  modify (λ w, set_ioStreams (<[streamId := Created]> (ioStreams w)) w).

(** Modelled from the spec: [GetStream] is missing from the sources; an
    unknown session ID is the error "NotFound". *)
Definition GetStream (streamId : string) : M error :=
  emit (EvRPC (CallGetStream streamId));;
  w ← get;
  match ioStreams w !! streamId with
  | Some _ => mret None
  | None => mret (Some "NotFound")
  end.

(** Modelled from the spec: [CloseStream] is missing from the sources;
    "CloseSession: idempotent; releases both halves, removes the session
    record". *)
Definition CloseStream (streamId : string) (w : World) : World :=
  let w := log (EvRPC (CallCloseStream streamId)) w in
  set_ioStreams (delete streamId (ioStreams w)) w.

(** [UserConnected] is missing from the sources: whether it fails is left
    to the environment. *)
Definition UserConnected (env : Env) (streamId : string) : M error :=
  e ← ask (λ tr, user_connected_error env tr streamId);
  emit (EvRPC (CallUserConnected streamId e));;
  mret e.

(** [StartStream] is missing from the sources: it runs the relay until one
    side ends it; the handler ignores its result. *)
Definition StartStream (streamId : string) (timeoutSeconds : N) : M unit :=
  emit (EvRPC (CallStartStream streamId timeoutSeconds)).

End rpc.

(** ** Package controller *)
Module controller.

Record TokenForm := mkTokenForm { Note : string }.

Record cronForm := mkCronForm {
  ID : uint64;
  TaskType : uint8;
  Name : string;
  Scheduler : string;
  Command : string;
  ServersRaw : string;
  Cover : uint8;
  PushSuccessful : string;
  NotificationTag : string
}.

Definition cronForm_zero : cronForm := mkCronForm 0 0 "" "" "" "" 0 "" "".

(** The index at which [for i, t := range l] first meets [t == x]. *)
Fixpoint index_of (x : string) (l : list string) : option nat :=
  match l with
  | [] => None
  | t :: l' => if String.eqb t x then Some O else S <$> index_of x l'
  end.

Section handlers.
Variable env : Env.
(** [model.CronTypeCronTask] and [model.CronCoverAlertTrigger], two
    constants of package [model] whose values are declared elsewhere. *)
Variables CronTypeCronTask CronCoverAlertTrigger : uint8.

(** A call on [singleton.DB]: recorded, its error returned. *)
Definition db (c : DBCall) : M error :=
  e ← ask (λ tr, db_error env tr c);
  emit (EvDB c e);;
  mret e.

(** [stream.Send(task)] on an open task stream. *)
Definition Send (stream : N) (t : proto.Task) : M error :=
  e ← ask (λ tr, send_error env tr stream t);
  emit (EvSend stream t e);;
  mret e.

(** [singleton.Cron.AddFunc(spec, singleton.CronTrigger(cr))] *)
Definition Cron_AddFunc (spec : string) (cr : model.Cron.t) : M (Z * error) :=
  w ← get;
  let '(r, c) := cron.AddFunc (parse_schedule env) spec cr (Cron w) in
  emit (EvCronAddFunc spec (snd r));;
  modify (set_Cron c);;
  mret r.

(** [singleton.Cron.Remove(id)] *)
Definition Cron_Remove (id : Z) : M unit :=
  emit (EvCronRemove id);;
  modify (λ w, set_Cron (cron.Remove id (Cron w)) w).

(** The error replies: HTTP 200 carrying [Code: http.StatusBadRequest]. *)
Definition bad_request (message : string) : M unit :=
  JSON http.StatusOK http.StatusBadRequest message [].

(** *** member_api.go *)

(** [u] is the authorized user of the request, [body] what
    [c.ShouldBindJSON(tf)] gives. *)
Definition issueNewToken (u : model.User.t) (body : result TokenForm) : M unit :=
  match body with
  | Err e => bad_request ("请求错误：" +:+ e);; return_
  | Ok tf =>
      r ← ask (λ tr, GenerateRandomString env tr 32);
      match r with
      | Err e => bad_request ("请求错误：" +:+ e);; return_
      | Ok secureToken =>
          let uid := model.User.ID u in
          let token := model.ApiToken.mk uid secureToken (Note tf) in
          db (DB_Create_ApiToken token);;
          emit (EvLock ApiLock);;
          modify (λ w,
            set_tokens
              (<[model.ApiToken.Token token := token]> (ApiTokenList w))
              (<[uid := (default [] (UserIDToApiTokenList w !! uid)
                           ++ [model.ApiToken.Token token])%list]>
                 (UserIDToApiTokenList w))
              w);;
          emit (EvUnlock ApiLock);;
          JSON http.StatusOK http.StatusOK "success"
               [("token", model.ApiToken.Token token);
                ("note", model.ApiToken.Note token)]
      end
  end.

(** [token] is [c.Param("token")].  The owner
    [singleton.ApiTokenList[token].UserID] is read again at every use in
    the source; the primary map does not change in between. *)
Definition deleteToken (token : string) : M unit :=
  if String.eqb token "" then
    bad_request "token 不能为空";; return_
  else
    emit (EvLock ApiLock);;
    defer (log (EvUnlock ApiLock));;
    w ← get;
    match ApiTokenList w !! token with
    | None => bad_request "token 不存在";; return_
    | Some tok =>
        db (DB_Unscoped_Delete T_ApiToken "token = ?" (ArgString token));;
        let uid := model.ApiToken.UserID tok in
        modify (λ w,
          let l := default [] (UserIDToApiTokenList w !! uid) in
          match index_of token l with
          | Some i =>
              set_tokens (ApiTokenList w)
                (<[uid := (take i l ++ drop (S i) l)%list]> (UserIDToApiTokenList w)) w
          | None => w
          end);;
        modify (λ w,
          if (length (default [] (UserIDToApiTokenList w !! uid)) =? 0)%nat
          then set_tokens (ApiTokenList w) (delete uid (UserIDToApiTokenList w)) w
          else w);;
        modify (λ w,
          set_tokens (delete token (ApiTokenList w)) (UserIDToApiTokenList w) w);;
        JSON http.StatusOK http.StatusOK "success" []
    end.

(** The in-memory half of replacing or dropping the job [id]:
    [crOld := singleton.Crons[id]], the engine's [Remove] when it holds a
    timer handle, then [delete(singleton.Crons, id)]. *)
Definition drop_cron (id : uint64) : M unit :=
  w ← get;
  match deref (Crons w) id with
  | Some crOld =>
      if (model.Cron.CronJobID crOld =? 0)%Z then mret tt
      else Cron_Remove (model.Cron.CronJobID crOld)
  | None => mret tt
  end;;
  emit (EvCronsDelete id);;
  modify (λ w, set_Crons (delete id (Crons w)) w).

(** [body] is what [c.ShouldBindJSON(&cf)] gives; after a failed binding
    [cf] is never read. *)
Definition addOrEditCron (body : result cronForm) : M unit :=
  let cf := match body with Ok cf => cf | Err _ => cronForm_zero end in
  let '(cr, err) :=
    match body with
    | Err e => (model.Cron.zero, Some e)
    | Ok cf =>
        let cr := model.Cron.mk (ID cf) (Name cf) (TaskType cf) (Scheduler cf)
                    (Command cf) [] (ServersRaw cf) (Cover cf)
                    (String.eqb (PushSuccessful cf) "on") 0%Z in
        match Unmarshal_uint64s env (ServersRaw cf) with
        | Ok servers =>
            (model.Cron.mk (ID cf) (Name cf) (TaskType cf) (Scheduler cf)
               (Command cf) servers (ServersRaw cf) (Cover cf)
               (String.eqb (PushSuccessful cf) "on") 0%Z, None)
        | Err e => (cr, Some e)
        end
    end in
  if (model.Cron.TaskType cr =? CronTypeCronTask)
     && (model.Cron.Cover cr =? CronCoverAlertTrigger) then
    bad_request ("请求错误：" +:+ "计划任务类型不得使用触发服务器执行方式");;
    return_
  else
    db DB_Begin;;
    '(cr, err) ←
      match err with
      | None =>
          if ID cf =? 0 then
            e ← db (Tx_Create cr);
            match e with
            | None =>
                id ← ask (db_assigned_id env);
                mret (model.Cron.with_ID id cr, None)
            | Some _ => mret (cr, e)
            end
          else
            e ← db (Tx_Save cr);
            mret (cr, e)
      | Some _ => mret (cr, err)
      end;
    '(cr, err) ←
      match err with
      | None =>
          if TaskType cf =? CronTypeCronTask then
            '(jobID, e) ← Cron_AddFunc (model.Cron.Scheduler cr) cr;
            mret (model.Cron.with_CronJobID jobID cr, e)
          else mret (cr, None)
      | Some _ => mret (cr, err)
      end;
    err ←
      match err with
      | None => db Tx_Commit
      | Some _ => db Tx_Rollback;; mret err
      end;
    match err with
    | Some e => bad_request ("请求错误：" +:+ e);; return_
    | None =>
        emit (EvLock CronLock);;
        defer (log (EvUnlock CronLock));;
        drop_cron (model.Cron.ID cr);;
        emit (EvCronsStore (model.Cron.ID cr));;
        modify (λ w, set_Crons (<[model.Cron.ID cr := Some cr]> (Crons w)) w);;
        JSON http.StatusOK http.StatusOK "" []
    end.

(** One round of the loop of [forceUpdate]: the text written to
    [executeResult] for the target [id]. *)
Definition forceUpdate_one (id : uint64) : M string :=
  emit (EvRLock ServerLock);;
  w ← get;
  let server := deref (ServerList w) id in
  emit (EvRUnlock ServerLock);;
  match stream_of server with
  | Some stream =>
      e ← Send stream (proto.mkTask model.TaskTypeUpgrade "");
      match e with
      | Some err => mret (pretty id +:+ " 下发指令失败 " +:+ err +:+ "<br/>")
      | None => mret (pretty id +:+ " 下发指令成功<br/>")
      end
  | None => mret (pretty id +:+ " 离线<br/>")
  end.

Fixpoint forceUpdate_loop (ids : list uint64) (executeResult : string) : M string :=
  match ids with
  | [] => mret executeResult
  | id :: rest =>
      line ← forceUpdate_one id;
      forceUpdate_loop rest (executeResult +:+ line)
  end.

(** [body] is what [c.ShouldBindJSON(&forceUpdateServers)] gives. *)
Definition forceUpdate (body : result (list uint64)) : M unit :=
  match body with
  | Err e => bad_request e;; return_
  | Ok forceUpdateServers =>
      executeResult ← forceUpdate_loop forceUpdateServers "";
      JSON http.StatusOK http.StatusOK executeResult []
  end.

(** [model_] is [c.Param("model")], [idParam] is [c.Param("id")]; the
    error of [ParseUint] is dropped by the source. *)
Definition delete (model_ idParam : string) : M unit :=
  let id := fst (strconv.ParseUint idParam) in
  if id <? 1 then
    bad_request "错误的 Server ID";; return_
  else
    err ←
      (if String.eqb model_ "nat" then
         e ← db (DB_Unscoped_Delete T_NAT "id = ?" (ArgUint id));
         match e with
         | None => emit (EvSingleton OnNATUpdate);; mret e
         | Some _ => mret e
         end
       else if String.eqb model_ "monitor" then
         e ← db (DB_Unscoped_Delete T_Monitor "id = ?" (ArgUint id));
         match e with
         | None =>
             emit (EvSingleton (OnMonitorDelete id));;
             db (DB_Unscoped_Delete T_MonitorHistory "monitor_id = ?" (ArgUint id))
         | Some _ => mret e
         end
       else if String.eqb model_ "cron" then
         e ← db (DB_Unscoped_Delete T_Cron "id = ?" (ArgUint id));
         match e with
         | None =>
             emit (EvRLock CronLock);;
             defer (log (EvRUnlock CronLock));;
             drop_cron id;;
             mret e
         | Some _ => mret e
         end
       else if String.eqb model_ "alert-rule" then
         e ← db (DB_Unscoped_Delete T_AlertRule "id = ?" (ArgUint id));
         match e with
         | None => emit (EvSingleton (OnDeleteAlert id));; mret e
         | Some _ => mret e
         end
       else mret None);
    match err with
    | Some e => bad_request ("数据库错误：" +:+ e);; return_
    | None => JSON http.StatusOK http.StatusOK "" []
    end.

(** *** common_page.go *)

(** [streamId] is [c.Param("id")].  The keep-alive goroutine is recorded
    when it is started.  It writes pings to the websocket and assigns the
    result of each to the [err] of the handler, so the value the handler
    tests after [UserConnected] is the result of [UserConnected] or what
    the goroutine has written over it in between. *)
Definition fm (streamId : string) : M unit :=
  err ← rpc.GetStream streamId;
  match err with
  | Some _ => return_
  | None =>
      defer (rpc.CloseStream streamId);;
      uerr ← ask (ws_upgrade_error env);
      emit (EvUpgrade uerr);;
      match uerr with
      | Some _ => return_
      | None =>
          defer (log EvWsClose);;
          emit EvGoPing;;
          cerr ← rpc.UserConnected env streamId;
          err ← ask (λ tr, default cerr (keepalive_write env tr));
          match err with
          | Some _ => return_
          | None => rpc.StartStream streamId 10
          end
      end
  end.

(** [IdString] is [c.Query("id")], [authorized] tells whether the request
    carries an authorized user. *)
Definition createFM (IdString : string) (authorized : bool) : M unit :=
  if negb authorized then return_
  else
    r ← ask (GenerateUUID env);
    match r with
    | Err _ => return_
    | Ok streamId =>
        rpc.CreateStream streamId;;
        let '(serverId, err) := strconv.Atoi IdString in
        match err with
        | Some _ => return_
        | None =>
            emit (EvRLock ServerLock);;
            w ← get;
            let server := deref (ServerList w) (strconv.uint64_of_int serverId) in
            emit (EvRUnlock ServerLock);;
            match server with
            | None => return_
            | Some srv =>
                let fmData := Marshal_TaskFM env streamId in
                match model.Server.TaskStream srv with
                | None => panic
                | Some stream =>
                    e ← Send stream (proto.mkTask model.TaskTypeFM fmData);
                    match e with
                    | Some _ => return_
                    | None =>
                        emit (EvHTML http.StatusOK "dashboard-"
                                [("SessionID", streamId)])
                    end
                end
            end
        end
    end.

End handlers.

End controller.

(** ** Package main of the dashboard *)
Module main.

(** The body of [for _, server := range singleton.ServerList], over the
    servers in the order the map hands them out. *)
Fixpoint report_loop (env : Env) (servers : list (option model.Server.t)) : M unit :=
  match servers with
  | [] => mret tt
  | server :: rest =>
      match stream_of server with
      | None => report_loop env rest
      | Some stream =>
          controller.Send env stream (proto.mkTask model.TaskTypeReportHostInfo "");;
          report_loop env rest
      end
  end.

Definition dispatchReportInfoTask (env : Env) : M unit :=
  emit (EvSleep 15);;
  emit (EvRLock ServerLock);;
  defer (log (EvRUnlock ServerLock));;
  w ← get;
  report_loop env (map snd (range_ServerList env (ServerList w))).

(** [ServiceName] is [proto.NezhaService_ServiceDesc.ServiceName], declared
    in the generated [proto] package.  A handler is what it makes of a
    request. *)
Definition newHTTPandGRPCMux {A} (ServiceName : string)
    (httpHandler grpcHandler : http.Request → A) : http.Request → A :=
  λ r,
    if String.eqb (http.Header_Get (http.Header r) "Content-Type") "application/grpc"
       && String.prefix ("/" +:+ ServiceName) (http.URL_Path r)
    then grpcHandler r
    else httpHandler r.

End main.

(** ** Reading a trace *)

(** The replies written with [c.JSON], oldest first. *)
Fixpoint replies (tr : list Event) : list model.Response.t :=
  match tr with
  | [] => []
  | EvJSON _ r :: tr' => r :: replies tr'
  | _ :: tr' => replies tr'
  end.

(** The database calls, oldest first. *)
Fixpoint db_calls (tr : list Event) : list DBCall :=
  match tr with
  | [] => []
  | EvDB c _ :: tr' => c :: db_calls tr'
  | _ :: tr' => db_calls tr'
  end.

(** How often [CloseStream] was called on the session [streamId]. *)
Fixpoint closes (streamId : string) (tr : list Event) : nat :=
  match tr with
  | [] => 0
  | EvRPC (CallCloseStream s) :: tr' =>
      ((if String.eqb s streamId then 1 else 0) + closes streamId tr')%nat
  | _ :: tr' => closes streamId tr'
  end.

(** The sends over task streams with their outcome, oldest first. *)
Fixpoint sends (tr : list Event) : list (N * proto.Task * error) :=
  match tr with
  | [] => []
  | EvSend stream t e :: tr' => (stream, t, e) :: sends tr'
  | _ :: tr' => sends tr'
  end.

(** Lock discipline: [held] counts the registry locks held (read or write);
    the check fails at the first [Send] made while one is held. *)
Fixpoint sends_outside_locks (held : nat) (tr : list Event) : bool :=
  match tr with
  | [] => true
  | (EvLock _ | EvRLock _) :: tr' => sends_outside_locks (S held) tr'
  | (EvUnlock _ | EvRUnlock _) :: tr' => sends_outside_locks (pred held) tr'
  | EvSend _ _ _ :: tr' => Nat.eqb held 0 && sends_outside_locks held tr'
  | _ :: tr' => sends_outside_locks held tr'
  end.

(** Deregistrations of a timer and changes of the job registry. *)
Definition on_job_registry (e : Event) : bool :=
  match e with
  | EvCronRemove _ | EvCronsDelete _ | EvCronsStore _ => true
  | _ => false
  end.

(** The number of registry locks held after [tr], starting from [held]. *)
Fixpoint locks_held (held : nat) (tr : list Event) : nat :=
  match tr with
  | [] => held
  | (EvLock _ | EvRLock _) :: tr' => locks_held (S held) tr'
  | (EvUnlock _ | EvRUnlock _) :: tr' => locks_held (pred held) tr'
  | _ :: tr' => locks_held held tr'
  end.

(** Append several events to the trace. *)
Definition logs (evs : list Event) (w : World) : World :=
  mkWorld (ApiTokenList w) (UserIDToApiTokenList w) (ServerList w) (Crons w) (Cron w)
          (ioStreams w) (trace w ++ evs).

(** ** The fan-out in the words of the specification

    One result per target: the agent is offline (not in the registry, or
    without a live stream), the delivery failed (the write on its stream
    returned an error), or the command was delivered. *)
Inductive Outcome := Offline | DeliveryFailed (err : string) | Delivered.

(** The line of the reply that reports the outcome for the target [id]. *)
Definition report (id : uint64) (o : Outcome) : string :=
  match o with
  | Offline => pretty id +:+ " 离线<br/>"
  | DeliveryFailed err => pretty id +:+ " 下发指令失败 " +:+ err +:+ "<br/>"
  | Delivered => pretty id +:+ " 下发指令成功<br/>"
  end.

(** The live stream of an agent, if it is registered and has one. *)
Definition live_stream (w : World) (id : uint64) : option N :=
  stream_of (deref (ServerList w) id).

(** The sends a fan-out with these outcomes has made: one per target that
    has a live stream, in the order of the targets. *)
Fixpoint attempts (w : World) (task : proto.Task) (ids : list uint64) (os : list Outcome)
    : list (N * proto.Task * error) :=
  match ids, os with
  | id :: ids', o :: os' =>
      match live_stream w id with
      | Some stream =>
          (stream, task, match o with DeliveryFailed e => Some e | _ => None end)
            :: attempts w task ids' os'
      | None => attempts w task ids' os'
      end
  | _, _ => []
  end.

(** The text of a buffer after these pieces were written to it. *)
Fixpoint join (pieces : list string) : string :=
  match pieces with
  | [] => ""
  | p :: pieces' => p +:+ join pieces'
  end.

Definition upgrade_task : proto.Task := proto.mkTask model.TaskTypeUpgrade "".

(** ** Job timers *)

(** The timer handle held by the in-memory record of the job [id]: none when
    there is no record or its [CronJobID] is zero. *)
Definition old_timer (w : World) (id : uint64) : option Z :=
  match deref (Crons w) id with
  | Some cr =>
      if (model.Cron.CronJobID cr =? 0)%Z then None
      else Some (model.Cron.CronJobID cr)
  | None => None
  end.

(** The deregistration calls owed before the record of [id] goes away. *)
Definition deregistration (w : World) (id : uint64) : list Event :=
  match old_timer w id with
  | Some h => [EvCronRemove h]
  | None => []
  end.

(** The engine once the timer of [id], if any, is deregistered. *)
Definition engine_without (w : World) (id : uint64) : cron.Cron :=
  match old_timer w id with
  | Some h => cron.Remove h (Cron w)
  | None => Cron w
  end.

(** The world after the record of [id] was dropped from the job registry. *)
Definition discard_job (id : uint64) (w : World) : World :=
  set_Crons (delete id (Crons w))
    (logs (deregistration w id ++ [EvCronsDelete id])
       (set_Cron (engine_without w id) w)).

Definition quiet (p : Event → bool) (tr : list Event) : bool :=
  forallb (λ e, negb (p e)) tr.

Definition is_timer_removal (e : Event) : bool :=
  match e with
  | EvCronRemove _ => true
  | _ => false
  end.

(** Between [w] and [w'] the record of the job [id] was discarded, the
    deregistration of its timer came right before that, and no other
    deregistration, discard or store came earlier, no other deregistration
    later. *)
Definition discarded_after_deregistration (w w' : World) (id : uint64) : Prop :=
  ∃ pre post,
    trace w' = trace w ++ pre ++ deregistration w id ++ [EvCronsDelete id] ++ post
    ∧ quiet on_job_registry pre = true
    ∧ quiet is_timer_removal post = true.

Definition reply_ok : model.Response.t := model.Response.mk http.StatusOK "" [].

(** The handler that ran from [w] to [w'] wrote the success reply, and
    nothing else, to the caller. *)
Definition replied_ok (w w' : World) : Prop :=
  replies (trace w') = replies (trace w) ++ [reply_ok].

(** ** The two token indices *)

(** The tokens listed for a user; a user without an entry has none. *)
Definition owner_list (u : gmap uint64 (list string)) (uid : uint64) : list string :=
  default [] (u !! uid).

(** The dual index: every key of the primary map is listed under its owner,
    and every token listed under a user is a key of the primary map owned by
    that user. *)
Definition dual_index (a : gmap string model.ApiToken.t)
    (u : gmap uint64 (list string)) : Prop :=
  (∀ t tok, a !! t = Some tok → t ∈ owner_list u (model.ApiToken.UserID tok))
  ∧ (∀ uid l t, u !! uid = Some l → t ∈ l →
        ∃ tok, a !! t = Some tok ∧ model.ApiToken.UserID tok = uid).

(** No user is left with an empty list. *)
Definition no_empty_list (u : gmap uint64 (list string)) : Prop :=
  ∀ uid l, u !! uid = Some l → l ≠ [].

(** Token strings are unique: none is listed twice under a user. *)
Definition listed_once (u : gmap uint64 (list string)) : Prop :=
  ∀ uid l, u !! uid = Some l → NoDup l.

Definition token_registry_ok (w : World) : Prop :=
  dual_index (ApiTokenList w) (UserIDToApiTokenList w)
  ∧ no_empty_list (UserIDToApiTokenList w)
  ∧ listed_once (UserIDToApiTokenList w).

(** The generator hands out a token that is not in use. *)
Definition fresh_token (env : Env) (w : World) : Prop :=
  ∀ t, GenerateRandomString env (trace w) 32 = Ok t → ApiTokenList w !! t = None.

(** What [deleteToken] does to the reverse index of the owner [uid]: the
    first occurrence of the token is cut out of the owner's list, and the
    entry is pruned when the list is then empty. *)
Definition unlist (t : string) (uid : uint64) (u : gmap uint64 (list string))
    : gmap uint64 (list string) :=
  let l := owner_list u uid in
  match controller.index_of t l with
  | Some i => <[uid := take i l ++ drop (S i) l]> u
  | None => u
  end.

Definition prune (uid : uint64) (u : gmap uint64 (list string))
    : gmap uint64 (list string) :=
  if (length (owner_list u uid) =? 0)%nat then delete uid u else u.

(** ** Routing and replies *)

(** Where the multiplexer sends a request. *)
Inductive Route := ToGRPC | ToHTTP.

Definition route (ServiceName : string) : http.Request → Route :=
  main.newHTTPandGRPCMux ServiceName (λ _, ToHTTP) (λ _, ToGRPC).

(** The two error replies of [deleteToken]. *)
Definition token_not_found : model.Response.t :=
  model.Response.mk http.StatusBadRequest "token 不存在" [].

Definition token_empty : model.Response.t :=
  model.Response.mk http.StatusBadRequest "token 不能为空" [].

(** ** Further handlers of member_api.go *)

(** Running a body whose value matters: the value it ended with and the
    world after the deferred calls. *)
Definition exec {A} (body : M A) (w : World) : Flow A * World :=
  let '(r, f) := body (mkFrame w []) in (r, run_deferred (deferred f) (world f)).

Module memberAPI.

Record apiResult := mkApiResult { Token : string; Note : string }.

(** [gin.H{"code": ..., "message": ..., "result": res}] as written by
    [getToken] ([result_] for the key "result"); it is not a
    [model.Response]. *)
Record tokenReply := mkTokenReply {
  status : N;
  code : N;
  message : string;
  result_ : list apiResult
}.

(** The loop of [getToken]: [singleton.ApiTokenList[token].Note] dereferences
    the pointer stored under [token], a nil pointer when the key is
    missing. *)
Fixpoint getToken_loop (a : gmap string model.ApiToken.t) (tokenList : list string)
    : M (list apiResult) :=
  match tokenList with
  | [] => mret []
  | token :: rest =>
      match a !! token with
      | None => panic
      | Some tok =>
          res ← getToken_loop a rest;
          mret (mkApiResult token (model.ApiToken.Note tok) :: res)
      end
  end.

(** [u] is the authorized user of the request; the value of the body is the
    reply written with [c.JSON]. *)
Definition getToken (u : model.User.t) : M tokenReply :=
  emit (EvRLock ApiLock);;
  defer (log (EvRUnlock ApiLock));;
  w ← get;
  let tokenList := default [] (UserIDToApiTokenList w !! model.User.ID u) in
  res ← getToken_loop (ApiTokenList w) tokenList;
  mret (mkTokenReply http.StatusOK 0 "success" res).

(** *** The handlers of the persisted entities

    These handlers thread one [err] through their steps.  What they do to
    the outside is returned as the list of their effects, in order: a row
    created or saved through [singleton.DB], a call to a collaborator, the
    reply written with [c.JSON(http.StatusOK, model.Response{...})]. *)

Inductive Collaborator :=
| NotificationSend (message : string)
| OnRefreshOrAddNotification
| OnDDNSUpdate
| OnRefreshOrAddAlert
| ConfSave
| OnNameserverUpdate.

Inductive Effect (Row : Type) :=
| DBCreate (row : Row) (err : error)
| DBSave (row : Row) (err : error)
| Call (c : Collaborator) (err : error)
| Reply (r : model.Response.t).
Arguments DBCreate {Row} row err.
Arguments DBSave {Row} row err.
Arguments Call {Row} c err.
Arguments Reply {Row} r.

(** [if x.ID == 0 { err = DB.Create(&x).Error } else { err = DB.Save(&x).Error }] *)
Definition persist {Row} (db_create db_save : Row → error) (id : uint64) (row : Row)
    : Effect Row * error :=
  if id =? 0 then (DBCreate row (db_create row), db_create row)
  else (DBSave row (db_save row), db_save row).

(** The tail every such handler shares: the error reply, or the callback
    into the running services followed by the success reply. *)
Definition conclude {Row} (done : list (Effect Row)) (err : error) (callback : Collaborator)
    : list (Effect Row) :=
  match err with
  | Some e =>
      done ++ [Reply (model.Response.mk http.StatusBadRequest ("请求错误：" +:+ e) [])]
  | None => done ++ [Call callback None; Reply (model.Response.mk http.StatusOK "" [])]
  end.

(** [strings.Split(s, sep)] for a separator of one byte. *)
Fixpoint Split (s : string) (sep : ascii) : list string :=
  match s with
  | EmptyString => [""]
  | String c rest =>
      if Ascii.eqb c sep then "" :: Split rest sep
      else
        match Split rest sep with
        | [] => [String c ""]
        | x :: xs => String c x :: xs
        end
  end.

Record ddnsForm := mkDdnsForm {
  df_ID : uint64;
  df_MaxRetries : uint64;
  df_EnableIPv4 : string;
  df_EnableIPv6 : string;
  df_Name : string;
  df_Provider : string;
  df_DomainsRaw : string;
  df_AccessID : string;
  df_AccessSecret : string;
  df_WebhookURL : string;
  df_WebhookMethod : uint8;
  df_WebhookRequestType : uint8;
  df_WebhookRequestBody : string;
  df_WebhookHeaders : string
}.

(** [model.DDNSProfile], with the fields the handler sets. *)
Record DDNSProfile := mkDDNSProfile {
  p_ID : uint64;
  p_EnableIPv4 : bool;
  p_EnableIPv6 : bool;
  p_MaxRetries : uint64;
  p_Name : string;
  p_Provider : string;
  p_DomainsRaw : string;
  p_Domains : list string;
  p_AccessID : string;
  p_AccessSecret : string;
  p_WebhookURL : string;
  p_WebhookMethod : uint8;
  p_WebhookRequestType : uint8;
  p_WebhookRequestBody : string;
  p_WebhookHeaders : string
}.

Definition DDNSProfile_zero : DDNSProfile :=
  mkDDNSProfile 0 false false 0 "" "" "" [] "" "" "" 0 0 "" "".

(** The loop over [p.Domains]: each domain is replaced in place by its
    ASCII form; the first one that does not convert sets the error and ends
    the loop, leaving it and the rest as they are. *)
Fixpoint ToASCII_loop (ToASCII : string → result string) (domains : list string)
    : list string * error :=
  match domains with
  | [] => ([], None)
  | domain :: rest =>
      match ToASCII domain with
      | Err domainErr =>
          (domain :: rest, Some ("域名 " +:+ domain +:+ " 解析错误: " +:+ domainErr))
      | Ok domainValid =>
          let '(rest', err) := ToASCII_loop ToASCII rest in
          (domainValid :: rest', err)
      end
  end.

(** [body] is what [c.ShouldBindJSON(&df)] gives, [ToASCII] is
    [idna.Lookup.ToASCII]. *)
Definition addOrEditDDNS (ToASCII : string → result string)
    (db_create db_save : DDNSProfile → error) (body : result ddnsForm)
    : list (Effect DDNSProfile) :=
  let err :=
    match body with
    | Err e => Some e
    | Ok df =>
        if (df_MaxRetries df <? 1) || (10 <? df_MaxRetries df)
        then Some "重试次数必须为大于 1 且不超过 10 的整数"
        else None
    end in
  let '(p, err) :=
    match body, err with
    | Ok df, None =>
        let '(domains, err) := ToASCII_loop ToASCII (Split (df_DomainsRaw df) ",") in
        (mkDDNSProfile (df_ID df) (String.eqb (df_EnableIPv4 df) "on")
           (String.eqb (df_EnableIPv6 df) "on") (df_MaxRetries df) (df_Name df)
           (df_Provider df) (df_DomainsRaw df) domains (df_AccessID df)
           (df_AccessSecret df) (df_WebhookURL df) (df_WebhookMethod df)
           (df_WebhookRequestType df) (df_WebhookRequestBody df) (df_WebhookHeaders df),
         err)
    | _, _ => (DDNSProfile_zero, err)
    end in
  let '(done, err) :=
    match err with
    | None => let '(eff, err) := persist db_create db_save (p_ID p) p in ([eff], err)
    | Some _ => ([], err)
    end in
  conclude done err OnDDNSUpdate.

Record notificationForm := mkNotificationForm {
  nf_ID : uint64;
  nf_Name : string;
  nf_URL : string;
  nf_RequestMethod : Z;
  nf_RequestType : Z;
  nf_RequestHeader : string;
  nf_RequestBody : string;
  nf_VerifySSL : string;
  nf_SkipCheck : string
}.

(** [model.Notification], with the fields the handler sets. *)
Record Notification := mkNotification {
  n_ID : uint64;
  n_Name : string;
  n_URL : string;
  n_RequestMethod : Z;
  n_RequestType : Z;
  n_RequestHeader : string;
  n_RequestBody : string;
  n_VerifySSL : bool
}.

Definition Notification_zero : Notification := mkNotification 0 "" "" 0 0 "" "" false.

(** [body] is what [c.ShouldBindJSON(&nf)] gives, [send n] is the error of
    [ns.Send("这是测试消息")] for the bundle built around [n]. *)
Definition addOrEditNotification (send : Notification → error)
    (db_create db_save : Notification → error) (body : result notificationForm)
    : list (Effect Notification) :=
  let '(n, tested, err) :=
    match body with
    | Err e => (Notification_zero, [], Some e)
    | Ok nf =>
        let n := mkNotification (nf_ID nf) (nf_Name nf) (nf_URL nf) (nf_RequestMethod nf)
                   (nf_RequestType nf) (nf_RequestHeader nf) (nf_RequestBody nf)
                   (String.eqb (nf_VerifySSL nf) "on") in
        if String.eqb (nf_SkipCheck nf) "on" then (n, [], None)
        else (n, [Call (NotificationSend "这是测试消息") (send n)], send n)
    end in
  let '(done, err) :=
    match err with
    | None =>
        let '(eff, err) := persist db_create db_save (n_ID n) n in (tested ++ [eff], err)
    | Some _ => (tested, err)
    end in
  conclude done err OnRefreshOrAddNotification.






Record settingForm := mkSettingForm {
  sf_SiteName : string;
  sf_Language : string;
  sf_CustomNameservers : string;
  sf_IgnoredIPNotification : string;
  sf_IPChangeNotificationTag : string;
  sf_InstallHost : string;
  sf_Cover : uint8;
  sf_EnableIPChangeNotification : string;
  sf_EnablePlainIPInNotification : string
}.

(** [singleton.Conf]: the fields [updateSetting] assigns, and the rest of
    the configuration. *)
Record Config (Rest : Type) := mkConfig {
  Language : string;
  EnableIPChangeNotification : bool;
  EnablePlainIPInNotification : bool;
  Cover : uint8;
  InstallHost : string;
  IgnoredIPNotification : string;
  IPChangeNotificationTag : string;
  SiteName : string;
  DNSServers : string;
  rest : Rest
}.
Arguments mkConfig {Rest}.
Arguments Language {Rest}.
Arguments EnableIPChangeNotification {Rest}.
Arguments EnablePlainIPInNotification {Rest}.
Arguments Cover {Rest}.
Arguments InstallHost {Rest}.
Arguments IgnoredIPNotification {Rest}.
Arguments IPChangeNotificationTag {Rest}.
Arguments SiteName {Rest}.
Arguments DNSServers {Rest}.
Arguments rest {Rest}.

(** [body] is what [c.ShouldBind(&sf)] gives, [save conf] the error of
    [singleton.Conf.Save()] on the configuration in memory.  The result is
    the configuration in memory after the handler and what the handler
    did. *)
Definition updateSetting {Rest} (save : Config Rest → error) (body : result settingForm)
    (Conf : Config Rest) : Config Rest * list (Effect unit) :=
  match body with
  | Err e =>
      (Conf, [Reply (model.Response.mk http.StatusBadRequest ("请求错误：" +:+ e) [])])
  | Ok sf =>
      let Conf :=
        mkConfig (sf_Language sf)
          (String.eqb (sf_EnableIPChangeNotification sf) "on")
          (String.eqb (sf_EnablePlainIPInNotification sf) "on")
          (sf_Cover sf) (sf_InstallHost sf) (sf_IgnoredIPNotification sf)
          (if String.eqb (sf_IPChangeNotificationTag sf) "" then "default"
           else sf_IPChangeNotificationTag sf)
          (sf_SiteName sf) (sf_CustomNameservers sf) (rest Conf) in
      match save Conf with
      | Some e =>
          (Conf, [Call ConfSave (Some e);
                  Reply (model.Response.mk http.StatusBadRequest ("请求错误：" +:+ e) [])])
      | None =>
          (Conf, [Call ConfSave None; Call OnNameserverUpdate None;
                  Reply (model.Response.mk http.StatusOK "" [])])
      end
  end.

End memberAPI.

(** Whether a handler of the persisted entities reached the database. *)
Definition persists {Row} (effs : list (memberAPI.Effect Row)) : bool :=
  existsb (λ e, match e with
                | memberAPI.DBCreate _ _ | memberAPI.DBSave _ _ => true
                | _ => false
                end) effs.

(** Whether it called the collaborator [c]. *)
Definition calls {Row} (c : memberAPI.Collaborator → bool)
    (effs : list (memberAPI.Effect Row)) : bool :=
  existsb (λ e, match e with
                | memberAPI.Call c' _ => c c'
                | _ => false
                end) effs.

Definition is_test_message (c : memberAPI.Collaborator) : bool :=
  match c with
  | memberAPI.NotificationSend _ => true
  | _ => false
  end.

Definition is_nameserver_update (c : memberAPI.Collaborator) : bool :=
  match c with
  | memberAPI.OnNameserverUpdate => true
  | _ => false
  end.


(** The note stored for a token, empty when the token is unknown. *)
Definition note_of (a : gmap string model.ApiToken.t) (t : string) : string :=
  match a !! t with
  | Some tok => model.ApiToken.Note tok
  | None => ""
  end.

(** The tokens of a user with their notes, as [getToken] lists them. *)
Definition listing (w : World) (uid : uint64) : list memberAPI.apiResult :=
  map (λ t, memberAPI.mkApiResult t (note_of (ApiTokenList w) t))
      (owner_list (UserIDToApiTokenList w) uid).

(** The task sent by the report-host-info fan-out. *)
Definition report_task : proto.Task := proto.mkTask model.TaskTypeReportHostInfo "".

(** The streams a fan-out over these servers sends on: those of the servers
    that are not nil and have a stream, in the order of the servers. *)
Definition live_streams (servers : list (option model.Server.t)) : list N :=
  omap stream_of servers.

Definition is_send (e : Event) : bool :=
  match e with
  | EvSend _ _ _ => true
  | _ => false
  end.

(** What a handler writes to the caller: a JSON reply or a rendered page. *)
Definition is_response (e : Event) : bool :=
  match e with
  | EvJSON _ _ | EvHTML _ _ _ => true
  | _ => false
  end.


(** Transaction discipline on a trace: [DB.Begin] opens a transaction when
    none is open, [Create] and [Save] on it need it open, [Commit] and
    [Rollback] close it, and none is left open at the end. *)
Fixpoint transactions_closed (open : bool) (tr : list Event) : bool :=
  match tr with
  | [] => negb open
  | EvDB DB_Begin _ :: tr' => negb open && transactions_closed true tr'
  | EvDB (Tx_Create _ | Tx_Save _) _ :: tr' => open && transactions_closed open tr'
  | EvDB (Tx_Commit | Tx_Rollback) _ :: tr' => open && transactions_closed false tr'
  | _ :: tr' => transactions_closed open tr'
  end.


(** ** The job registry and the timers of the engine *)

(** The engine [e] once the timer held by the record of [id] in [cs], if
    any, is deregistered. *)
Definition remove_old (cs : gmap uint64 (option model.Cron.t)) (e : cron.Cron)
    (id : uint64) : cron.Cron :=
  match
    match deref cs id with
    | Some cr =>
        if (model.Cron.CronJobID cr =? 0)%Z then None
        else Some (model.Cron.CronJobID cr)
    | None => None
    end
  with
  | Some h => cron.Remove h e
  | None => e
  end.

(** The job registry [cs] and the engine [e] agree: every timer handle held
    by a record is registered in the engine, the engine has handed out no
    handle beyond its counter, the counter is not negative, and no two
    records hold the same handle. *)
Definition consistent (cs : gmap uint64 (option model.Cron.t)) (e : cron.Cron) : Prop :=
  (∀ id cr, cs !! id = Some (Some cr) → model.Cron.CronJobID cr ≠ 0%Z →
            is_Some (cron.entries e !! model.Cron.CronJobID cr))
  ∧ (∀ h, is_Some (cron.entries e !! h) → (h ≤ cron.nextID e)%Z)
  ∧ (0 ≤ cron.nextID e)%Z
  ∧ (∀ id1 id2 cr1 cr2,
       cs !! id1 = Some (Some cr1) → cs !! id2 = Some (Some cr2) →
       model.Cron.CronJobID cr1 ≠ 0%Z →
       model.Cron.CronJobID cr1 = model.Cron.CronJobID cr2 → id1 = id2).

Definition timers_consistent (w : World) : Prop := consistent (Crons w) (Cron w).

(** ** Sample worlds and environments *)

(** An environment in which every collaborator succeeds; the server
    registry is ranged in the order of [map_to_list], and the keep-alive
    goroutine never writes between the assignment and the test of [err]. *)
Definition quiet_env : Env :=
  mkEnv (λ _ _, None) (λ _, 7) (λ _ _ _, None) (λ _ _, Ok "tok-A")
        (λ _, Ok "sess-1") (λ _, None) (λ _, Ok []) (λ s, s) (λ _, None) (λ _ _, None)
        map_to_list (λ _, None).

(** As [quiet_env], but every send on stream 2 fails. *)
Definition lossy_env : Env :=
  mkEnv (λ _ _, None) (λ _, 7) (λ _ s _, if s =? 2 then Some "EOF" else None)
        (λ _ _, Ok "tok-A") (λ _, Ok "sess-1") (λ _, None) (λ _, Ok [])
        (λ s, s) (λ _, None) (λ _ _, None)
        map_to_list (λ _, None).

Definition empty_world : World :=
  mkWorld ∅ ∅ ∅ ∅ (cron.mk ∅ 0) ∅ [].

(** Agent 1 is connected on stream 1, agent 2 on stream 2, agent 3 is known
    but has no stream. *)
Definition fleet_world : World :=
  mkWorld ∅ ∅
    (<[1 := Some (model.Server.mk 1 (Some 1))]>
       (<[2 := Some (model.Server.mk 2 (Some 2))]>
          (<[3 := Some (model.Server.mk 3 None)]> ∅)))
    ∅ (cron.mk ∅ 0) ∅ [].

(** Only agent 1, connected on stream 1. *)
Definition one_agent_world : World :=
  mkWorld ∅ ∅ {[ 1 := Some (model.Server.mk 1 (Some 1)) ]} ∅ (cron.mk ∅ 0) ∅ [].

(** As [quiet_env], but the token generator hands out "tok-B". *)
Definition issuing_env : Env :=
  mkEnv (λ _ _, None) (λ _, 7) (λ _ _ _, None) (λ _ _, Ok "tok-B")
        (λ _, Ok "sess-1") (λ _, None) (λ _, Ok []) (λ s, s) (λ _, None) (λ _ _, None)
        map_to_list (λ _, None).

Definition token_A : model.ApiToken.t := model.ApiToken.mk 1 "tok-A" "ci".

(** User 1 holds the token "tok-A". *)
Definition tokens_world : World :=
  mkWorld (<["tok-A" := token_A]> ∅) (<[1 := ["tok-A"]]> ∅) ∅ ∅ (cron.mk ∅ 0) ∅ [].

(** User 1 holds token "tok-A" and lists it twice, as after the generator
    has handed out the same string for the user a second time. *)
Definition twice_listed_world : World :=
  set_tokens (ApiTokenList tokens_world) (<[1 := ["tok-A"; "tok-A"]]> ∅) tokens_world.

Definition backup_job : model.Cron.t :=
  model.Cron.mk 5 "backup" 0 "0 0 3 * * *" "tar" [1] "[1]" 0 false 3%Z.

(** Job 5 is registered and holds the timer handle 3. *)
Definition jobs_world : World :=
  mkWorld ∅ ∅ ∅ {[ 5 := Some backup_job ]}
    (cron.mk {[ 3%Z := ("0 0 3 * * *", backup_job) ]} 3%Z) ∅ [].

Definition backup_form : controller.cronForm :=
  controller.mkCronForm 5 0 "backup" "0 30 4 * * *" "tar" "[1]" 0 "" "".

(** The session "sess-1" is open on the agent side. *)
Definition relay_world : World :=
  mkWorld ∅ ∅ ∅ ∅ (cron.mk ∅ 0) {[ "sess-1" := AgentAttached ]} [].

(** A stand-in for [idna.Lookup.ToASCII] on the names used below: a name
    with an exclamation mark, a character that the lookup profile does not
    allow in a domain name, is refused; the plain lower-case names are left
    as they are. *)
Definition plain_ToASCII (domain : string) : result string :=
  if existsb (Ascii.eqb "!"%char) (list_ascii_of_string domain)
  then Err "idna: disallowed rune U+0021"
  else Ok domain.

Definition home_ddns : memberAPI.ddnsForm :=
  memberAPI.mkDdnsForm 0 3 "on" "" "home" "webhook" "a.example,b.example"
    "" "" "https://ddns.example/update" 1 1 "" "".

Definition eager_ddns : memberAPI.ddnsForm :=
  memberAPI.mkDdnsForm 0 11 "on" "" "home" "webhook" "a.example"
    "" "" "https://ddns.example/update" 1 1 "" "".

Definition mistyped_ddns : memberAPI.ddnsForm :=
  memberAPI.mkDdnsForm 4 3 "on" "" "home" "webhook" "a.example,b!.example,c.example"
    "" "" "https://ddns.example/update" 1 1 "" "".

(** * Properties *)

(** Running a handler body: unfold the operations of [M] and compute. *)
Ltac run :=
  cbv [call panics mbind M_bind mret M_ret emit modify defer get ask return_ panic
       JSON rpc.CreateStream rpc.GetStream rpc.UserConnected rpc.StartStream
       controller.db controller.Send controller.bad_request
       controller.Cron_AddFunc controller.Cron_Remove cron.AddFunc
       world deferred run_deferred fold_left];
  cbn [trace ApiTokenList UserIDToApiTokenList ServerList Crons Cron ioStreams
       log set_tokens set_Crons set_Cron set_ioStreams rpc.CloseStream fst snd].

(** ** Numbers and strings *)

Example ParseUint_42 : strconv.ParseUint "42" = (42, None).
Proof. reflexivity. Qed.

Example ParseUint_overflow :
  strconv.ParseUint "18446744073709551616" = (strconv.maxUint64, Some strconv.ErrRange).
Proof. reflexivity. Qed.

Example ParseUint_signed : strconv.ParseUint "-1" = (0, Some strconv.ErrSyntax).
Proof. reflexivity. Qed.

Example Atoi_negative : strconv.Atoi "-17" = ((-17)%Z, None).
Proof. reflexivity. Qed.

Example Atoi_letters : strconv.Atoi "abc" = (0%Z, Some strconv.ErrSyntax).
Proof. reflexivity. Qed.

Example Atoi_long :
  strconv.Atoi "9223372036854775808" = (9223372036854775807%Z, Some strconv.ErrRange).
Proof. reflexivity. Qed.

Lemma append_String (c : ascii) (s t : string) :
  String c s +:+ t = String c (s +:+ t).
Proof. reflexivity. Qed.

Lemma append_assoc (s t u : string) : (s +:+ t) +:+ u = s +:+ (t +:+ u).
Proof.
  induction s as [|c s IH]; [done|].
  by rewrite !append_String, IH.
Qed.

Lemma prefix_spec (p s : string) :
  String.prefix p s = true ↔ ∃ rest, s = p +:+ rest.
Proof.
  revert s; induction p as [|c p IH]; intros s.
  - split; [intros _; by exists s | by destruct s].
  - destruct s as [|d s]; simpl.
    + split; [done | intros [rest H]; discriminate].
    + destruct (Ascii.ascii_dec c d) as [->|Hne].
      * rewrite IH. split; intros [rest H]; exists rest;
          rewrite append_String in *; congruence.
      * split; [done | intros [rest H]; rewrite append_String in H; congruence].
Qed.

(** ** The protocol multiplexer *)

(** C5: a request goes to the streaming RPC handler exactly when its
    Content-Type header equals "application/grpc" and its path begins with
    "/" followed by the service name; every other request goes to the plain
    HTTP handler, whatever the two handlers are. *)
Theorem mux_routes_by_content_type_and_path (ServiceName : string) (r : http.Request) :
  (route ServiceName r = ToGRPC ↔
     http.Header_Get (http.Header r) "Content-Type" = "application/grpc"
     ∧ ∃ rest, http.URL_Path r = "/" +:+ ServiceName +:+ rest)
  ∧ (route ServiceName r = ToGRPC ∨ route ServiceName r = ToHTTP)
  ∧ ∀ (A : Type) (httpHandler grpcHandler : http.Request → A),
      main.newHTTPandGRPCMux ServiceName httpHandler grpcHandler r =
        match route ServiceName r with
        | ToGRPC => grpcHandler r
        | ToHTTP => httpHandler r
        end.
Proof.
  assert (Hpath : String.prefix ("/" +:+ ServiceName) (http.URL_Path r) = true
                  ↔ ∃ rest, http.URL_Path r = "/" +:+ ServiceName +:+ rest).
  { rewrite prefix_spec. split; intros [rest H]; exists rest;
      [by rewrite H, append_assoc | by rewrite append_assoc]. }
  unfold route, main.newHTTPandGRPCMux.
  destruct (String.eqb _ "application/grpc") eqn:Hct;
    destruct (String.prefix _ _) eqn:Hp; simpl.
  all: repeat split; auto; try discriminate.
  - by apply String.eqb_eq.
  - by apply Hpath.
  - intros [_ Hpre]. apply Hpath in Hpre. congruence.
  - intros [Heq _]. apply String.eqb_eq in Heq. congruence.
  - intros [Heq _]. apply String.eqb_eq in Heq. congruence.
Qed.

(** ** Deleting an entity by kind *)

(** C10: a delete request for a kind outside "nat", "monitor", "cron" and
    "alert-rule" whose ID parses to at least 1 is answered with code 200; the
    reply is the only thing that happens: no database call, no registry
    change, no callback. *)
Theorem delete_unknown_model_is_accepted (env : Env) (model_ idParam : string) (w : World) :
  model_ ≠ "nat" → model_ ≠ "monitor" → model_ ≠ "cron" → model_ ≠ "alert-rule" →
  1 ≤ fst (strconv.ParseUint idParam) →
  call (controller.delete env model_ idParam) w
    = log (EvJSON http.StatusOK (model.Response.mk http.StatusOK "" [])) w
  ∧ panics (controller.delete env model_ idParam) w = false.
Proof.
  intros H1 H2 H3 H4 Hid.
  apply String.eqb_neq in H1, H2, H3, H4.
  apply N.ltb_ge in Hid.
  unfold call, panics, controller.delete.
  rewrite Hid, H1, H2, H3, H4. done.
Qed.

Lemma delete_unknown_model_is_accepted_witness :
  call (controller.delete quiet_env "server" "5") empty_world
    = log (EvJSON http.StatusOK (model.Response.mk http.StatusOK "" [])) empty_world
  ∧ panics (controller.delete quiet_env "server" "5") empty_world = false.
Proof.
  apply (delete_unknown_model_is_accepted quiet_env "server" "5" empty_world);
    [discriminate | discriminate | discriminate | discriminate | vm_compute; discriminate].
Defined.

(** ** Scheduled jobs: the misconfigured timer job *)

(** C8: a job form whose task type is the timer-based one and whose
    execution mode is the alert-trigger one is answered with code 400 and the
    reason; nothing else happens: no transaction is opened, no timer is
    added, the job registry is as before. *)
Theorem addOrEditCron_rejects_timer_job_with_alert_trigger
    (env : Env) (CronTypeCronTask CronCoverAlertTrigger : uint8)
    (cf : controller.cronForm) (w : World) :
  controller.TaskType cf = CronTypeCronTask →
  controller.Cover cf = CronCoverAlertTrigger →
  call (controller.addOrEditCron env CronTypeCronTask CronCoverAlertTrigger (Ok cf)) w
    = log (EvJSON http.StatusOK
             (model.Response.mk http.StatusBadRequest
                "请求错误：计划任务类型不得使用触发服务器执行方式" [])) w.
Proof.
  intros HT HC.
  unfold call, controller.addOrEditCron.
  destruct (Unmarshal_uint64s env _); simpl; rewrite HT, HC, !N.eqb_refl; done.
Qed.

Lemma addOrEditCron_rejects_timer_job_with_alert_trigger_witness :
  call (controller.addOrEditCron quiet_env 0 2
          (Ok (controller.mkCronForm 0 0 "backup" "0 0 3 * * *" "tar" "[]" 2 "on" "")))
       empty_world
    = log (EvJSON http.StatusOK
             (model.Response.mk http.StatusBadRequest
                "请求错误：计划任务类型不得使用触发服务器执行方式" [])) empty_world.
Proof.
  apply (addOrEditCron_rejects_timer_job_with_alert_trigger quiet_env 0 2
           (controller.mkCronForm 0 0 "backup" "0 0 3 * * *" "tar" "[]" 2 "on" "")
           empty_world); reflexivity.
Defined.

(** ** The user side of a session relay *)

(** C7: when the session lookup succeeds, [fm] calls [CloseStream] on the
    session exactly once, as the last thing it does, whatever the websocket
    upgrade, the user attachment and the relay do; the session record is gone
    afterwards. *)
Theorem fm_closes_session_exactly_once (env : Env) (streamId : string) (w : World) :
  is_Some (ioStreams w !! streamId) →
  ∃ evs,
    trace (call (controller.fm env streamId) w) = trace w ++ evs
    ∧ closes streamId evs = 1%nat
    ∧ last evs = Some (EvRPC (CallCloseStream streamId))
    ∧ ioStreams (call (controller.fm env streamId) w) !! streamId = None
    ∧ panics (controller.fm env streamId) w = false.
Proof.
  intros [st Hst]. unfold controller.fm. run. rewrite Hst. run.
  destruct (ws_upgrade_error env _) as [e|] eqn:Hup; run.
  2: destruct (user_connected_error env _ streamId) as [e|] eqn:Huc; run.
  2, 3: destruct (keepalive_write env _) as [[e'|]|] eqn:Hka;
    cbn [default from_option Datatypes.id]; run.
  all: eexists; split; [rewrite <- !app_assoc; reflexivity|].
  all: cbn [closes app]; rewrite String.eqb_refl, lookup_delete_eq; done.
Qed.

Lemma fm_closes_session_exactly_once_witness :
  ∃ evs,
    trace (call (controller.fm quiet_env "sess-1") relay_world) = trace relay_world ++ evs
    ∧ closes "sess-1" evs = 1%nat
    ∧ last evs = Some (EvRPC (CallCloseStream "sess-1"))
    ∧ ioStreams (call (controller.fm quiet_env "sess-1") relay_world) !! "sess-1" = None
    ∧ panics (controller.fm quiet_env "sess-1") relay_world = false.
Proof.
  apply (fm_closes_session_exactly_once quiet_env "sess-1" relay_world).
  exists AgentAttached. reflexivity.
Defined.

(** ** Creating a session *)

(** [createFM] never closes a session: once the session is created it is
    still registered, in state [Created], when the handler returns, on the
    successful path and on every failing one. *)
Lemma createFM_session_stays_created (env : Env) (IdString streamId : string) (w : World) :
  GenerateUUID env (trace w) = Ok streamId →
  ioStreams (call (controller.createFM env IdString true) w) !! streamId = Some Created.
Proof.
  intros Hid. unfold controller.createFM. cbn [negb]. run. rewrite Hid. run.
  destruct (strconv.Atoi IdString) as [serverId [e|]]; run;
    [by rewrite lookup_insert_eq|].
  destruct (deref (ServerList w) _) as [srv|]; run; [|by rewrite lookup_insert_eq].
  destruct (model.Server.TaskStream srv) as [stream|]; run;
    [|by rewrite lookup_insert_eq].
  destruct (send_error env _ stream _); run; by rewrite lookup_insert_eq.
Qed.

(** C1 fails on the code.  In each of the three failing dispatches (the
    agent ID does not parse; the agent is not in the registry; the send on
    the agent's stream fails) the session created at the head of [createFM]
    is still registered in state [Created] after the handler has returned,
    and [CloseStream] was never called. *)
Theorem createFM_failed_dispatch_leaves_session_behind :
  let unparsable := call (controller.createFM quiet_env "abc" true) fleet_world in
  let absent := call (controller.createFM quiet_env "9" true) fleet_world in
  let send_fails := call (controller.createFM lossy_env "2" true) fleet_world in
  (ioStreams unparsable !! "sess-1" = Some Created
   ∧ trace unparsable = [EvRPC (CallCreateStream "sess-1")])
  ∧ (ioStreams absent !! "sess-1" = Some Created
     ∧ trace absent = [EvRPC (CallCreateStream "sess-1");
                       EvRLock ServerLock; EvRUnlock ServerLock])
  ∧ (ioStreams send_fails !! "sess-1" = Some Created
     ∧ trace send_fails =
         [EvRPC (CallCreateStream "sess-1"); EvRLock ServerLock; EvRUnlock ServerLock;
          EvSend 2 (proto.mkTask model.TaskTypeFM "sess-1") (Some "EOF")]).
Proof. vm_compute. repeat split. Qed.

(** ** Lock discipline of the fan-outs *)

(** C6 fails on the code.  With one connected agent, the report-host-info
    fan-out takes the read lock of the server registry, sends on the agent's
    stream, and only then releases the lock: the send happens while the
    registry lock is held. *)
Theorem dispatchReportInfoTask_sends_while_holding_ServerLock :
  trace (call (main.dispatchReportInfoTask quiet_env) one_agent_world)
    = [EvSleep 15; EvRLock ServerLock;
       EvSend 1 (proto.mkTask model.TaskTypeReportHostInfo "") None;
       EvRUnlock ServerLock]
  ∧ sends_outside_locks 0
      (trace (call (main.dispatchReportInfoTask quiet_env) one_agent_world)) = false.
Proof. vm_compute. split; reflexivity. Qed.

(** ** Traces *)

Lemma logs_nil (w : World) : logs [] w = w.
Proof. destruct w. unfold logs. cbn. by rewrite app_nil_r. Qed.

Lemma logs_logs (a b : list Event) (w : World) : logs b (logs a w) = logs (a ++ b) w.
Proof. unfold logs. cbn. by rewrite app_assoc. Qed.

Lemma log_logs (e : Event) (w : World) : log e w = logs [e] w.
Proof. reflexivity. Qed.

Lemma sends_app (a b : list Event) : sends (a ++ b) = sends a ++ sends b.
Proof.
  induction a as [|e a IH]; [done|].
  destruct e; cbn; by rewrite ?IH.
Qed.

Lemma sends_outside_locks_app (h : nat) (a b : list Event) :
  sends_outside_locks h (a ++ b)
    = sends_outside_locks h a && sends_outside_locks (locks_held h a) b.
Proof.
  revert h; induction a as [|e a IH]; intros h; [done|].
  destruct e; cbn; rewrite ?IH; try done.
  by rewrite andb_assoc.
Qed.

Lemma locks_held_app (h : nat) (a b : list Event) :
  locks_held h (a ++ b) = locks_held (locks_held h a) b.
Proof.
  revert h; induction a as [|e a IH]; intros h; [done|].
  destruct e; cbn; by rewrite ?IH.
Qed.

(** ** The force-update fan-out *)

(** One round of the loop. *)
Lemma forceUpdate_one_spec (env : Env) (id : uint64) (w : World) (ds : list (World → World)) :
  ∃ o evs,
    controller.forceUpdate_one env id (mkFrame w ds)
      = (Next (report id o), mkFrame (logs evs w) ds)
    ∧ (o = Offline ↔ live_stream w id = None)
    ∧ sends evs = attempts w upgrade_task [id] [o]
    ∧ sends_outside_locks 0 evs = true
    ∧ locks_held 0 evs = 0%nat.
Proof.
  unfold controller.forceUpdate_one. run.
  fold (live_stream w id). unfold attempts.
  destruct (live_stream w id) as [stream|] eqn:Hs; run.
  - destruct (send_error env _ stream _) as [e|] eqn:He; run;
      rewrite !log_logs, !logs_logs; cbn [app].
    + by exists (DeliveryFailed e),
        [EvRLock ServerLock; EvRUnlock ServerLock; EvSend stream upgrade_task (Some e)].
    + by exists Delivered,
        [EvRLock ServerLock; EvRUnlock ServerLock; EvSend stream upgrade_task None].
  - rewrite !log_logs, !logs_logs; cbn [app].
    by exists Offline, [EvRLock ServerLock; EvRUnlock ServerLock].
Qed.

Lemma attempts_logs (evs : list Event) (w : World) (t : proto.Task)
    (ids : list uint64) (os : list Outcome) :
  attempts (logs evs w) t ids os = attempts w t ids os.
Proof.
  revert os; induction ids as [|id ids IH]; intros [|o os]; try done.
  cbn [attempts]. rewrite IH. reflexivity.
Qed.

(** The whole loop: the buffer grows by one report per target, in order. *)
Lemma forceUpdate_loop_spec (env : Env) (ids : list uint64) :
  ∀ (buf : string) (w : World) (ds : list (World → World)),
  ∃ os evs,
    controller.forceUpdate_loop env ids buf (mkFrame w ds)
      = (Next (buf +:+ join (zip_with report ids os)), mkFrame (logs evs w) ds)
    ∧ length os = length ids
    ∧ Forall2 (λ id o, o = Offline ↔ live_stream w id = None) ids os
    ∧ sends evs = attempts w upgrade_task ids os
    ∧ sends_outside_locks 0 evs = true
    ∧ locks_held 0 evs = 0%nat.
Proof.
  induction ids as [|id ids IH]; intros buf w ds.
  - exists [], []. cbn. rewrite logs_nil.
    replace (buf +:+ "") with buf; [by repeat split|].
    clear. induction buf as [|c b IHb]; [done|].
    by rewrite append_String, <- IHb.
  - destruct (forceUpdate_one_spec env id w ds) as (o & e1 & H1 & Ho & Hs1 & Hl1 & Hh1).
    destruct (IH (buf +:+ report id o) (logs e1 w) ds)
      as (os & e2 & H2 & Hlen & Hall & Hs2 & Hl2 & Hh2).
    exists (o :: os), (e1 ++ e2).
    split; [|split; [|split; [|split; [|split]]]].
    + cbn [controller.forceUpdate_loop]. unfold mbind, M_bind at 1.
      rewrite H1, H2, logs_logs. cbn [zip_with join]. by rewrite append_assoc.
    + cbn. by rewrite Hlen.
    + by constructor.
    + rewrite sends_app, Hs1, Hs2, attempts_logs. cbn [attempts].
      by destruct (live_stream w id).
    + by rewrite sends_outside_locks_app, Hl1, Hh1, Hl2.
    + by rewrite locks_held_app, Hh1, Hh2.
Qed.

Lemma report_distinct (id : uint64) (e : string) :
  report id Offline ≠ report id (DeliveryFailed e)
  ∧ report id Offline ≠ report id Delivered
  ∧ report id Delivered ≠ report id (DeliveryFailed e).
Proof.
  unfold report. repeat split; intros H; apply String.app_inj in H; discriminate H.
Qed.

(** C3: for every list of agent IDs the force-update fan-out writes exactly
    one report per target, in the order of the input; a target that is not in
    the registry or has no live stream is reported offline and gets no send;
    every target with a live stream gets its send, whatever happened to the
    targets before it; a failed send is reported as a failed delivery, a
    report distinct from the offline one. *)
Theorem forceUpdate_reports_every_target (env : Env) (ids : list uint64) (w : World) :
  ∃ os evs,
    call (controller.forceUpdate env (Ok ids)) w
      = logs (evs ++ [EvJSON http.StatusOK
                        (model.Response.mk http.StatusOK
                           (join (zip_with report ids os)) [])]) w
    ∧ length os = length ids
    ∧ Forall2 (λ id o, o = Offline ↔ live_stream w id = None) ids os
    ∧ sends evs = attempts w upgrade_task ids os
    ∧ (∀ id e, report id Offline ≠ report id (DeliveryFailed e)
               ∧ report id Offline ≠ report id Delivered
               ∧ report id Delivered ≠ report id (DeliveryFailed e)).
Proof.
  destruct (forceUpdate_loop_spec env ids "" w [])
    as (os & evs & Hloop & Hlen & Hall & Hsends & _ & _).
  exists os, evs. split; [|by auto using report_distinct].
  unfold controller.forceUpdate, call. unfold mbind, M_bind at 1.
  rewrite Hloop. run. unfold logs. cbn. by rewrite app_assoc.
Qed.

Example forceUpdate_fleet :
  replies (trace (call (controller.forceUpdate lossy_env (Ok [1; 9; 2; 3])) fleet_world))
    = [model.Response.mk http.StatusOK
         "1 下发指令成功<br/>9 离线<br/>2 下发指令失败 EOF<br/>3 离线<br/>" []]
  ∧ sends (trace (call (controller.forceUpdate lossy_env (Ok [1; 9; 2; 3])) fleet_world))
    = [(1, upgrade_task, None); (2, upgrade_task, Some "EOF")].
Proof. vm_compute. split; reflexivity. Qed.

(** The force-update fan-out keeps the lock discipline: each send is made
    after the read lock of the server registry has been released. *)
Lemma forceUpdate_sends_outside_locks (env : Env) (ids : list uint64) (w : World) :
  ∃ evs,
    trace (call (controller.forceUpdate env (Ok ids)) w) = trace w ++ evs
    ∧ sends_outside_locks 0 evs = true.
Proof.
  destruct (forceUpdate_loop_spec env ids "" w [])
    as (os & evs & Hloop & _ & _ & _ & Hlocks & Hheld).
  exists (evs ++ [EvJSON http.StatusOK
                    (model.Response.mk http.StatusOK (join (zip_with report ids os)) [])]).
  split.
  - unfold controller.forceUpdate, call. unfold mbind, M_bind at 1.
    rewrite Hloop. run. unfold logs. cbn. by rewrite app_assoc.
  - by rewrite sends_outside_locks_app, Hlocks.
Qed.

(** ** Replacing and removing scheduled jobs *)

Lemma replies_app (a b : list Event) : replies (a ++ b) = replies a ++ replies b.
Proof.
  induction a as [|e a IH]; [done|].
  destruct e; cbn; by rewrite ?IH.
Qed.

Lemma db_calls_app (a b : list Event) : db_calls (a ++ b) = db_calls a ++ db_calls b.
Proof.
  induction a as [|e a IH]; [done|].
  destruct e; cbn; by rewrite ?IH.
Qed.

Lemma drop_cron_spec (id : uint64) (w : World) (ds : list (World → World)) :
  controller.drop_cron id (mkFrame w ds) = (Next tt, mkFrame (discard_job id w) ds).
Proof.
  unfold controller.drop_cron, discard_job, deregistration, engine_without, old_timer.
  run.
  destruct (deref (Crons w) id) as [cr|]; run.
  - destruct (model.Cron.CronJobID cr =? 0)%Z; run.
    + unfold logs, set_Crons, set_Cron. cbn. destruct w; cbn. reflexivity.
    + unfold logs, set_Crons, set_Cron. cbn. by rewrite <- app_assoc.
  - unfold logs, set_Crons, set_Cron. cbn. destruct w; cbn. reflexivity.
Qed.

(** The next answer of a collaborator that steers the handler. *)
Ltac oracle_case :=
  match goal with
  | |- context [match ?x with _ => _ end] =>
      lazymatch x with
      | db_error _ _ ?c =>
          lazymatch c with
          | DB_Begin => fail
          | Tx_Rollback => fail
          | _ => destruct x eqn:?
          end
      | parse_schedule _ _ => destruct x eqn:?
      | N.eqb _ _ => destruct x eqn:?
      | N.ltb _ _ => destruct x eqn:?
      | andb _ _ => destruct x eqn:?
      end
  end.

(** A handler that ended on an error reply did not reply with success. *)
Ltac not_ok H :=
  exfalso; unfold replied_ok in H;
  cbn [trace log logs set_Cron set_Crons] in H;
  rewrite <- ?app_assoc, replies_app in H;
  apply app_inv_head in H; cbn in H; discriminate H.

(** Removing the job [id] when the database delete went through. *)
Lemma delete_cron_run (env : Env) (idParam : string) (w : World) :
  let id := fst (strconv.ParseUint idParam) in
  1 ≤ id →
  db_error env (trace w) (DB_Unscoped_Delete T_Cron "id = ?" (ArgUint id)) = None →
  call (controller.delete env "cron" idParam) w
    = logs [EvJSON http.StatusOK reply_ok; EvRUnlock CronLock]
        (discard_job id
           (logs [EvDB (DB_Unscoped_Delete T_Cron "id = ?" (ArgUint id)) None;
                  EvRLock CronLock] w)).
Proof.
  intros id Hid Hdb. apply N.ltb_ge in Hid.
  unfold controller.delete. fold id. rewrite Hid.
  cbn [String.eqb Ascii.eqb Bool.eqb].
  run. rewrite Hdb. run. rewrite drop_cron_spec. run.
  by rewrite !log_logs, !logs_logs.
Qed.

Lemma delete_cron_discards (env : Env) (idParam : string) (w : World) :
  let id := fst (strconv.ParseUint idParam) in
  let w' := call (controller.delete env "cron" idParam) w in
  replied_ok w w' →
  discarded_after_deregistration w w' id ∧ Crons w' = delete id (Crons w).
Proof.
  intros id w'.
  destruct (N.ltb_spec id 1) as [Hlt|Hge].
  - subst w'. unfold controller.delete. fold id.
    apply N.ltb_lt in Hlt. rewrite Hlt. run. intros H. not_ok H.
  - destruct (db_error env (trace w)
                (DB_Unscoped_Delete T_Cron "id = ?" (ArgUint id))) as [e|] eqn:Hdb.
    + subst w'. unfold controller.delete. fold id.
      apply N.ltb_ge in Hge. rewrite Hge.
      cbn [String.eqb Ascii.eqb Bool.eqb].
      run. rewrite Hdb. run. intros H. not_ok H.
    + intros _. subst w'. rewrite (delete_cron_run env idParam w Hge Hdb). fold id.
      split; [|reflexivity].
      exists [EvDB (DB_Unscoped_Delete T_Cron "id = ?" (ArgUint id)) None;
              EvRLock CronLock],
             [EvJSON http.StatusOK reply_ok; EvRUnlock CronLock].
      split; [|by split].
      cbn [trace logs discard_job set_Crons set_Cron].
      change (deregistration _ id) with (deregistration w id).
      by rewrite <- !app_assoc.
Qed.

Lemma addOrEditCron_discards (env : Env) (CronTypeCronTask CronCoverAlertTrigger : uint8)
    (body : result controller.cronForm) (w : World) :
  let w' := call (controller.addOrEditCron env CronTypeCronTask CronCoverAlertTrigger body) w in
  replied_ok w w' →
  ∃ cr,
    discarded_after_deregistration w w' (model.Cron.ID cr)
    ∧ Crons w' = <[model.Cron.ID cr := Some cr]> (Crons w)
    ∧ (∀ cf, body = Ok cf → controller.ID cf ≠ 0 → model.Cron.ID cr = controller.ID cf).
Proof.
  unfold controller.addOrEditCron.
  destruct body as [cf|e0];
    [destruct (Unmarshal_uint64s env (controller.ServersRaw cf)) as [servers|e1]|];
    cbn [model.Cron.TaskType model.Cron.Cover model.Cron.zero];
    run; repeat (oracle_case; run).
  all: try (intros H; not_ok H).
  all: rewrite drop_cron_spec; run; intros _.
  all: eexists; split; [|split]; cycle 1.
  all: try (cbn [Crons logs set_Crons discard_job set_Cron];
            rewrite insert_delete_eq; reflexivity).
  all: try (intros cf0 Heq Hne; injection Heq as <-;
            first [ reflexivity | exfalso; apply Hne; by apply N.eqb_eq ]).
  all: unfold discarded_after_deregistration;
    cbn [trace log logs set_Crons set_Cron discard_job].
  all: match goal with
       | |- context [deregistration _ ?id] =>
           change (deregistration _ id) with (deregistration w id)
       end.
  all: rewrite <- !app_assoc; cbn [app].
  all: first [ eexists [_;_;_;_], _; split; [reflexivity|by split]
             | eexists [_;_;_;_;_], _; split; [reflexivity|by split] ].
Qed.

(** C4: whenever the removal of a job (delete with model "cron") or the
    replacement of a job (addOrEditCron) goes through, the record of the job
    is dropped from the job registry right after the timer handle it held was
    deregistered from the engine, and no other deregistration is made; when
    the old record holds no handle (it is absent or its handle is zero) no
    deregistration is made at all. *)
Theorem job_timer_deregistered_before_record_is_dropped
    (env : Env) (CronTypeCronTask CronCoverAlertTrigger : uint8) (w : World) :
  (∀ idParam,
     let id := fst (strconv.ParseUint idParam) in
     let w' := call (controller.delete env "cron" idParam) w in
     replied_ok w w' →
     discarded_after_deregistration w w' id ∧ Crons w' = delete id (Crons w))
  ∧ (∀ body,
       let w' := call (controller.addOrEditCron env CronTypeCronTask
                         CronCoverAlertTrigger body) w in
       replied_ok w w' →
       ∃ cr,
         discarded_after_deregistration w w' (model.Cron.ID cr)
         ∧ Crons w' = <[model.Cron.ID cr := Some cr]> (Crons w)
         ∧ (∀ cf, body = Ok cf → controller.ID cf ≠ 0 →
                  model.Cron.ID cr = controller.ID cf)).
Proof.
  split.
  - intros idParam. apply delete_cron_discards.
  - intros body. apply addOrEditCron_discards.
Qed.

Example delete_cron_trace :
  trace (call (controller.delete quiet_env "cron" "5") jobs_world)
    = [EvDB (DB_Unscoped_Delete T_Cron "id = ?" (ArgUint 5)) None;
       EvRLock CronLock; EvCronRemove 3; EvCronsDelete 5;
       EvJSON http.StatusOK reply_ok; EvRUnlock CronLock].
Proof. vm_compute. reflexivity. Qed.

Example addOrEditCron_trace :
  let cr := model.Cron.mk 5 "backup" 0 "0 30 4 * * *" "tar" [] "[1]" 0 false 0%Z in
  trace (call (controller.addOrEditCron quiet_env 0 2 (Ok backup_form)) jobs_world)
    = [EvDB DB_Begin None; EvDB (Tx_Save cr) None;
       EvCronAddFunc "0 30 4 * * *" None; EvDB Tx_Commit None;
       EvLock CronLock; EvCronRemove 3; EvCronsDelete 5; EvCronsStore 5;
       EvJSON http.StatusOK reply_ok; EvUnlock CronLock].
Proof. vm_compute. reflexivity. Qed.

Lemma job_timer_deregistered_before_record_is_dropped_witness :
  (let w' := call (controller.delete quiet_env "cron" "5") jobs_world in
   replied_ok jobs_world w'
   ∧ discarded_after_deregistration jobs_world w' 5
   ∧ Crons w' = delete 5 (Crons jobs_world))
  ∧ (let w' := call (controller.addOrEditCron quiet_env 0 2 (Ok backup_form)) jobs_world in
     replied_ok jobs_world w'
     ∧ ∃ cr,
         discarded_after_deregistration jobs_world w' (model.Cron.ID cr)
         ∧ Crons w' = <[model.Cron.ID cr := Some cr]> (Crons jobs_world)
         ∧ (∀ cf, Ok backup_form = Ok cf → controller.ID cf ≠ 0 →
                  model.Cron.ID cr = controller.ID cf)).
Proof.
  pose proof (job_timer_deregistered_before_record_is_dropped quiet_env 0 2 jobs_world)
    as [Hremove Hreplace].
  split.
  - assert (Hok : replied_ok jobs_world
                    (call (controller.delete quiet_env "cron" "5") jobs_world))
      by (vm_compute; reflexivity).
    split; [exact Hok | exact (Hremove "5" Hok)].
  - assert (Hok : replied_ok jobs_world
                    (call (controller.addOrEditCron quiet_env 0 2 (Ok backup_form))
                       jobs_world))
      by (vm_compute; reflexivity).
    split; [exact Hok | exact (Hreplace (Ok backup_form) Hok)].
Defined.

(** ** The token registry *)

Lemma index_of_Some (t : string) (l : list string) (i : nat) :
  controller.index_of t l = Some i →
  ∃ l1 l2, l = l1 ++ t :: l2 ∧ length l1 = i ∧ t ∉ l1.
Proof.
  revert i; induction l as [|x l IH]; intros i; cbn; [done|].
  destruct (String.eqb_spec x t) as [->|Hne].
  - intros [= <-]. exists [], l. repeat split. apply not_elem_of_nil.
  - destruct (controller.index_of t l) as [j|]; [|done].
    intros [= <-]. destruct (IH j eq_refl) as (l1 & l2 & -> & <- & Hnot).
    exists (x :: l1), l2. repeat split.
    rewrite not_elem_of_cons. split; [congruence | done].
Qed.

Lemma index_of_None (t : string) (l : list string) :
  controller.index_of t l = None → t ∉ l.
Proof.
  induction l as [|x l IH]; cbn; [intros _; apply not_elem_of_nil|].
  destruct (String.eqb_spec x t) as [->|Hne]; [done|].
  destruct (controller.index_of t l); [done|].
  intros _. rewrite not_elem_of_cons. split; [congruence | by apply IH].
Qed.

Lemma take_drop_middle_out (t : string) (l1 l2 : list string) :
  take (length l1) (l1 ++ t :: l2) ++ drop (S (length l1)) (l1 ++ t :: l2) = l1 ++ l2.
Proof.
  rewrite take_app_length.
  replace (S (length l1)) with (length (l1 ++ [t])) by (rewrite length_app; cbn; lia).
  by rewrite (cons_middle t l1 l2), app_assoc, drop_app_length.
Qed.

Lemma owner_list_Some (u : gmap uint64 (list string)) (uid : uint64) (t : string) :
  t ∈ owner_list u uid → u !! uid = Some (owner_list u uid).
Proof.
  unfold owner_list. destruct (u !! uid); cbn; [done|].
  intros H. by apply elem_of_nil in H.
Qed.

(** Issuing a fresh token keeps the indices consistent. *)
Lemma issue_keeps_indices (a : gmap string model.ApiToken.t)
    (u : gmap uint64 (list string)) (tok : model.ApiToken.t) :
  let t := model.ApiToken.Token tok in
  let uid := model.ApiToken.UserID tok in
  dual_index a u → no_empty_list u → listed_once u → a !! t = None →
  dual_index (<[t := tok]> a) (<[uid := owner_list u uid ++ [t]]> u)
  ∧ no_empty_list (<[uid := owner_list u uid ++ [t]]> u)
  ∧ listed_once (<[uid := owner_list u uid ++ [t]]> u).
Proof.
  intros t uid [Hkey Hlist] Hne Hdup Hfresh.
  assert (Hnotin : t ∉ owner_list u uid).
  { intros Hin. pose proof (owner_list_Some _ _ _ Hin) as Hl.
    destruct (Hlist _ _ _ Hl Hin) as (tok' & Htok' & _). congruence. }
  split; [split|split].
  - intros t' tok'. rewrite lookup_insert. case_decide as Ht.
    + intros [= <-]. subst t'. unfold owner_list at 1.
      rewrite lookup_insert_eq. cbn. apply elem_of_app. right. apply list_elem_of_singleton.
      reflexivity.
    + intros Htok'. pose proof (Hkey _ _ Htok') as Hin.
      unfold owner_list at 1. rewrite lookup_insert. case_decide as Hu.
      * cbn. apply elem_of_app. left. by rewrite Hu.
      * done.
  - intros uid' l t'. rewrite lookup_insert. case_decide as Hu.
    + intros [= <-]. subst uid'. rewrite elem_of_app, list_elem_of_singleton.
      intros [Hin | ->].
      * pose proof (owner_list_Some _ _ _ Hin) as Hl.
        destruct (Hlist _ _ _ Hl Hin) as (tok' & Htok' & Hown).
        exists tok'. split; [|done]. rewrite lookup_insert_ne; [done|congruence].
      * exists tok. by rewrite lookup_insert_eq.
    + intros Hl Hin. destruct (Hlist _ _ _ Hl Hin) as (tok' & Htok' & Hown).
      exists tok'. split; [|done]. rewrite lookup_insert_ne; [done|congruence].
  - intros uid' l. rewrite lookup_insert. case_decide as Hu.
    + intros [= <-]. by destruct (owner_list u uid).
    + apply Hne.
  - intros uid' l. rewrite lookup_insert. case_decide as Hu.
    + intros [= <-]. apply NoDup_app. split; [|split].
      * unfold owner_list. destruct (u !! uid) as [l0|] eqn:Hl0; cbn.
        -- by apply (Hdup uid).
        -- constructor.
      * intros x Hx. rewrite list_elem_of_singleton. intros ->. done.
      * apply NoDup_singleton.
    + apply Hdup.
Qed.

(** Revoking a token keeps the indices consistent. *)
Lemma revoke_keeps_indices (a : gmap string model.ApiToken.t)
    (u : gmap uint64 (list string)) (t : string) (tok : model.ApiToken.t) :
  let uid := model.ApiToken.UserID tok in
  dual_index a u → no_empty_list u → listed_once u → a !! t = Some tok →
  dual_index (delete t a) (prune uid (unlist t uid u))
  ∧ no_empty_list (prune uid (unlist t uid u))
  ∧ listed_once (prune uid (unlist t uid u)).
Proof.
  intros uid [Hkey Hlist] Hne Hdup Htok.
  pose proof (Hkey _ _ Htok) as Hin. fold uid in Hin.
  pose proof (owner_list_Some _ _ _ Hin) as Hl.
  pose proof (Hdup _ _ Hl) as Hnd.
  unfold unlist.
  destruct (controller.index_of t (owner_list u uid)) as [i|] eqn:Hi;
    [|by apply index_of_None in Hi].
  destruct (index_of_Some _ _ _ Hi) as (l1 & l2 & Hsplit & <- & Hnot1).
  rewrite Hsplit, take_drop_middle_out.
  rewrite Hsplit in Hl, Hnd, Hin.
  apply NoDup_app in Hnd as (Hnd1 & Hdisj & Hnd2).
  apply NoDup_cons in Hnd2 as [Hnot2 Hnd2].
  assert (Hnot : t ∉ l1 ++ l2) by (rewrite elem_of_app; tauto).
  assert (Hnd' : NoDup (l1 ++ l2)).
  { apply NoDup_app. repeat split; [done| |done].
    intros x Hx1 Hx2. apply (Hdisj x Hx1). by right. }
  assert (Hsub : ∀ x, x ∈ l1 ++ l2 → x ∈ l1 ++ t :: l2).
  { intros x. rewrite !elem_of_app, elem_of_cons. tauto. }
  assert (Hkeep : ∀ x, x ≠ t → x ∈ l1 ++ t :: l2 → x ∈ l1 ++ l2).
  { intros x Hx. rewrite !elem_of_app, elem_of_cons. tauto. }
  (* the reverse index after the prune step, by lookup *)
  assert (Hlook : ∀ uid',
    prune uid (<[uid := l1 ++ l2]> u) !! uid'
      = if decide (uid = uid')
        then (if decide (l1 ++ l2 = []) then None else Some (l1 ++ l2))
        else u !! uid').
  { intros uid'. unfold prune, owner_list. rewrite lookup_insert_eq. cbn.
    destruct (l1 ++ l2) as [|x l'] eqn:Hl'; cbn.
    - rewrite lookup_delete, lookup_insert. by repeat case_decide.
    - rewrite lookup_insert. by repeat case_decide. }
  split; [split|split].
  - intros t' tok'. rewrite lookup_delete.
    destruct (decide (t = t')) as [Ht|Ht]; [done|].
    intros Htok'. pose proof (Hkey _ _ Htok') as Hin'.
    unfold owner_list. rewrite Hlook.
    destruct (decide (uid = model.ApiToken.UserID tok')) as [Hu|Hu]; [|done].
    rewrite <- Hu in Hin'. unfold owner_list in Hin'. rewrite Hl in Hin'. cbn in Hin'.
    assert (Hin2 : t' ∈ l1 ++ l2) by (apply Hkeep; [congruence|done]).
    destruct (decide (l1 ++ l2 = [])) as [He|He]; [|done].
    rewrite He in Hin2. by apply elem_of_nil in Hin2.
  - intros uid' l t'. rewrite Hlook.
    destruct (decide (uid = uid')) as [Hu|Hu].
    + destruct (decide (l1 ++ l2 = [])) as [He|He]; [done|].
      intros [= <-] Hin'. subst uid'.
      destruct (Hlist _ _ _ Hl (Hsub _ Hin')) as (tok' & Htok' & Hown).
      exists tok'. split; [|done].
      rewrite lookup_delete_ne; [done|]. intros ->. done.
    + intros Hl' Hin'. destruct (Hlist _ _ _ Hl' Hin') as (tok' & Htok' & Hown).
      exists tok'. split; [|done].
      rewrite lookup_delete_ne; [done|]. intros ->.
      rewrite Htok in Htok'. injection Htok' as <-. by apply Hu.
  - intros uid' l. rewrite Hlook.
    destruct (decide (uid = uid')) as [Hu|Hu]; [|apply Hne].
    destruct (decide (l1 ++ l2 = [])) as [He|He]; [done|]. by intros [= <-].
  - intros uid' l. rewrite Hlook.
    destruct (decide (uid = uid')) as [Hu|Hu]; [|apply Hdup].
    destruct (decide (l1 ++ l2 = [])) as [He|He]; [done|]. by intros [= <-].
Qed.

(** What a successful revocation does to the world. *)
Lemma deleteToken_run (env : Env) (token : string) (tok : model.ApiToken.t) (w : World) :
  token ≠ "" →
  ApiTokenList w !! token = Some tok →
  let uid := model.ApiToken.UserID tok in
  let del := DB_Unscoped_Delete T_ApiToken "token = ?" (ArgString token) in
  call (controller.deleteToken env token) w
    = logs [EvLock ApiLock;
            EvDB del (db_error env (trace w ++ [EvLock ApiLock]) del);
            EvJSON http.StatusOK (model.Response.mk http.StatusOK "success" []);
            EvUnlock ApiLock]
        (set_tokens (delete token (ApiTokenList w))
           (prune uid (unlist token uid (UserIDToApiTokenList w))) w).
Proof.
  intros Hne Htok uid del. unfold controller.deleteToken.
  apply String.eqb_neq in Hne. rewrite Hne. run. rewrite Htok. run.
  fold uid. fold del.
  unfold prune, unlist. fold (owner_list (UserIDToApiTokenList w) uid).
  destruct (controller.index_of token _) as [i|]; run.
  - fold (owner_list (<[uid := take i (owner_list (UserIDToApiTokenList w) uid)
                            ++ drop (S i) (owner_list (UserIDToApiTokenList w) uid)]>
                        (UserIDToApiTokenList w)) uid).
    destruct (length _ =? 0)%nat; unfold log, logs, set_tokens; cbn;
      by rewrite <- !app_assoc.
  - fold (owner_list (UserIDToApiTokenList w) uid).
    destruct (length _ =? 0)%nat; unfold log, logs, set_tokens; cbn;
      by rewrite <- !app_assoc.
Qed.

(** What issuing a token does to the world. *)
Lemma issueNewToken_run (env : Env) (u : model.User.t) (tf : controller.TokenForm)
    (t : string) (w : World) :
  GenerateRandomString env (trace w) 32 = Ok t →
  let uid := model.User.ID u in
  let tok := model.ApiToken.mk uid t (controller.Note tf) in
  call (controller.issueNewToken env u (Ok tf)) w
    = logs [EvDB (DB_Create_ApiToken tok) (db_error env (trace w) (DB_Create_ApiToken tok));
            EvLock ApiLock; EvUnlock ApiLock;
            EvJSON http.StatusOK
              (model.Response.mk http.StatusOK "success"
                 [("token", t); ("note", controller.Note tf)])]
        (set_tokens (<[t := tok]> (ApiTokenList w))
           (<[uid := owner_list (UserIDToApiTokenList w) uid ++ [t]]>
              (UserIDToApiTokenList w)) w).
Proof.
  intros Hgen uid tok. unfold controller.issueNewToken. run. rewrite Hgen. run.
  unfold log, logs, set_tokens, owner_list. cbn. by rewrite <- !app_assoc.
Qed.

Lemma empty_registry_ok : token_registry_ok empty_world.
Proof.
  repeat split; cbn; intros *; rewrite ?lookup_empty; done.
Qed.

Lemma tokens_world_ok : token_registry_ok tokens_world.
Proof.
  destruct empty_registry_ok as (Hdual & Hne & Hdup).
  exact (issue_keeps_indices ∅ ∅ token_A Hdual Hne Hdup (lookup_empty _)).
Qed.

(** C2 as stated fails, on two counts.  [issueNewToken] does not look
    whether the generated string is already a token: when the generator
    repeats token "tok-A" of user 1 for user 2, the key changes its owner
    while user 1 still lists it, and the dual index is broken.  And the
    invariant as stated does not exclude a token listed twice (which a
    repeated string for the same user produces): [deleteToken] cuts out
    only the first occurrence and then drops the key, so the token stays
    listed without being a key. *)
Lemma token_invariant_as_stated_is_not_preserved :
  (dual_index (ApiTokenList tokens_world) (UserIDToApiTokenList tokens_world)
   ∧ no_empty_list (UserIDToApiTokenList tokens_world)
   ∧ let w' := call (controller.issueNewToken quiet_env (model.User.mk 2)
                       (Ok (controller.mkTokenForm "deploy"))) tokens_world in
     ¬ dual_index (ApiTokenList w') (UserIDToApiTokenList w'))
  ∧ (dual_index (ApiTokenList twice_listed_world) (UserIDToApiTokenList twice_listed_world)
     ∧ no_empty_list (UserIDToApiTokenList twice_listed_world)
     ∧ let w' := call (controller.deleteToken quiet_env "tok-A") twice_listed_world in
       ¬ dual_index (ApiTokenList w') (UserIDToApiTokenList w')).
Proof.
  split.
  - destruct tokens_world_ok as (Hdual & Hne & _).
    split; [exact Hdual | split; [exact Hne|]].
    intros w' [_ Hlisted].
    destruct (Hlisted 1 ["tok-A"] "tok-A") as (tok & Htok & Huid).
    + vm_compute. reflexivity.
    + by left.
    + vm_compute in Htok. injection Htok as <-. discriminate Huid.
  - split; [|split].
    + split.
      * intros t tok Htok.
        change (ApiTokenList twice_listed_world)
          with (<["tok-A" := token_A]> (∅ : gmap string model.ApiToken.t)) in Htok.
        apply lookup_insert_Some in Htok as [[<- <-]|[_ Htok]];
          [|by rewrite lookup_empty in Htok].
        vm_compute. by left.
      * intros uid l t Hl Hin.
        change (UserIDToApiTokenList twice_listed_world)
          with (<[1 := ["tok-A"; "tok-A"]]> (∅ : gmap uint64 (list string))) in Hl.
        apply lookup_insert_Some in Hl as [[<- <-]|[_ Hl]]; [|by rewrite lookup_empty in Hl].
        exists token_A. split; [|reflexivity].
        assert (t = "tok-A") as -> by (rewrite !elem_of_cons, elem_of_nil in Hin; tauto).
        reflexivity.
    + intros uid l Hl.
      change (UserIDToApiTokenList twice_listed_world)
        with (<[1 := ["tok-A"; "tok-A"]]> (∅ : gmap uint64 (list string))) in Hl.
      apply lookup_insert_Some in Hl as [[<- <-]|[_ Hl]]; [done|by rewrite lookup_empty in Hl].
    + intros w' [_ Hlisted].
      destruct (Hlisted 1 ["tok-A"] "tok-A") as (tok & Htok & _).
      * vm_compute. reflexivity.
      * by left.
      * vm_compute in Htok. discriminate Htok.
Qed.

(** C2, amended: on a registry whose two indices are consistent (every key
    of the primary map is listed under its owner, every listed token is a
    key owned by that user, no user has an empty list) and in which no token
    is listed twice, issuing a token that is not yet in use and revoking any
    token leave the indices in that state: in particular a revoked token is
    gone from both, and a user whose last token is revoked has no entry
    left. *)
Theorem token_operations_keep_indices_consistent (env : Env) (w : World) :
  token_registry_ok w →
  (∀ u body, fresh_token env w →
     token_registry_ok (call (controller.issueNewToken env u body) w))
  ∧ (∀ token, token_registry_ok (call (controller.deleteToken env token) w)).
Proof.
  intros Hok. split.
  - intros u [tf|e] Hfresh; [|exact Hok].
    destruct (GenerateRandomString env (trace w) 32) as [t|e] eqn:Hgen.
    + rewrite (issueNewToken_run env u tf t w Hgen).
      destruct Hok as (Hdual & Hne & Hdup).
      apply (issue_keeps_indices _ _
               (model.ApiToken.mk (model.User.ID u) t (controller.Note tf)));
        auto.
    + unfold controller.issueNewToken. run. rewrite Hgen. exact Hok.
  - intros token.
    destruct (String.eqb_spec token "") as [->|Hne]; [exact Hok|].
    destruct (ApiTokenList w !! token) as [tok|] eqn:Htok.
    + rewrite (deleteToken_run env token tok w Hne Htok).
      destruct Hok as (Hdual & Hnempty & Hdup).
      by apply revoke_keeps_indices.
    + unfold controller.deleteToken. apply String.eqb_neq in Hne. rewrite Hne.
      run. rewrite Htok. exact Hok.
Qed.

Lemma token_operations_keep_indices_consistent_witness :
  token_registry_ok
    (call (controller.issueNewToken issuing_env (model.User.mk 1)
             (Ok (controller.mkTokenForm "deploy"))) tokens_world)
  ∧ token_registry_ok (call (controller.deleteToken issuing_env "tok-A") tokens_world).
Proof.
  pose proof (token_operations_keep_indices_consistent issuing_env tokens_world
                tokens_world_ok) as [Hissue Hrevoke].
  split.
  - apply Hissue. intros t [= <-]. reflexivity.
  - apply Hrevoke.
Defined.

(** Issue a token for user 1, then revoke it: the token is listed alone, and
    after the revocation neither index has an entry. *)
Example issue_then_revoke :
  let w1 := call (controller.issueNewToken quiet_env (model.User.mk 1)
                    (Ok (controller.mkTokenForm "ci"))) empty_world in
  let w2 := call (controller.deleteToken quiet_env "tok-A") w1 in
  UserIDToApiTokenList w1 !! 1 = Some ["tok-A"]
  ∧ ApiTokenList w1 !! "tok-A" = Some token_A
  ∧ UserIDToApiTokenList w2 !! 1 = None
  ∧ ApiTokenList w2 !! "tok-A" = None
  ∧ db_calls (trace w2)
      = [DB_Create_ApiToken token_A;
         DB_Unscoped_Delete T_ApiToken "token = ?" (ArgString "tok-A")].
Proof. vm_compute. repeat split. Qed.

(** ** Revoking an unknown token *)

(** The guard at the head of [deleteToken]: an empty token is answered with
    an error of its own before the registry lock is taken.  The route
    [/token/:token] binds the parameter to a non-empty path segment, so the
    handler is entered with a token that is not empty. *)
Lemma deleteToken_empty_token_guard (env : Env) (w : World) :
  call (controller.deleteToken env "") w = log (EvJSON http.StatusOK token_empty) w.
Proof. reflexivity. Qed.

(** C9: for a token, as the route [/token/:token] delivers it, that is not a
    key of the primary map, [deleteToken] answers with the not-found error
    and leaves all state as it was: the handler takes the registry lock,
    writes the reply and releases the lock, nothing else; both token indices
    are exactly as before and no database call is made. *)
Theorem deleteToken_unknown_token_changes_nothing (env : Env) (token : string) (w : World) :
  token ≠ "" →
  ApiTokenList w !! token = None →
  let w' := call (controller.deleteToken env token) w in
  w' = logs [EvLock ApiLock; EvJSON http.StatusOK token_not_found; EvUnlock ApiLock] w
  ∧ replies (trace w') = replies (trace w) ++ [token_not_found]
  ∧ ApiTokenList w' = ApiTokenList w
  ∧ UserIDToApiTokenList w' = UserIDToApiTokenList w
  ∧ db_calls (trace w') = db_calls (trace w).
Proof.
  intros Hne%String.eqb_neq Hnone w'.
  assert (Hw' : w' = logs [EvLock ApiLock; EvJSON http.StatusOK token_not_found;
                           EvUnlock ApiLock] w).
  { subst w'. unfold call, controller.deleteToken. rewrite Hne.
    run. rewrite Hnone. run. by rewrite !log_logs, !logs_logs. }
  rewrite Hw'. split; [done|].
  unfold logs. cbn [trace ApiTokenList UserIDToApiTokenList].
  rewrite replies_app, db_calls_app. cbn. by rewrite app_nil_r.
Qed.

Lemma deleteToken_unknown_token_changes_nothing_witness :
  let w' := call (controller.deleteToken quiet_env "nobody") tokens_world in
  w' = logs [EvLock ApiLock; EvJSON http.StatusOK token_not_found; EvUnlock ApiLock]
         tokens_world
  ∧ replies (trace w') = replies (trace tokens_world) ++ [token_not_found]
  ∧ ApiTokenList w' = ApiTokenList tokens_world
  ∧ UserIDToApiTokenList w' = UserIDToApiTokenList tokens_world
  ∧ db_calls (trace w') = db_calls (trace tokens_world).
Proof.
  apply (deleteToken_unknown_token_changes_nothing quiet_env "nobody" tokens_world).
  - discriminate.
  - reflexivity.
Defined.

(** * Further properties of the handlers *)

(** ** Listing, issuing and revoking tokens *)

Lemma getToken_loop_ok (a : gmap string model.ApiToken.t) (l : list string) (f : Frame) :
  (∀ t, t ∈ l → is_Some (a !! t)) →
  memberAPI.getToken_loop a l f
    = (Next (map (λ t, memberAPI.mkApiResult t (note_of a t)) l), f).
Proof.
  induction l as [|t l IH]; intros Hall; [done|].
  cbn [memberAPI.getToken_loop map].
  destruct (Hall t) as [tok Htok]; [by left|].
  unfold note_of at 1. rewrite Htok.
  unfold mbind, M_bind. rewrite IH; [done|].
  intros t' Ht'. apply Hall. by right.
Qed.

Lemma getToken_loop_panics (a : gmap string model.ApiToken.t) (l : list string) (f : Frame) :
  (∃ t, t ∈ l ∧ a !! t = None) →
  memberAPI.getToken_loop a l f = (Panicked, f).
Proof.
  induction l as [|t l IH]; intros (t0 & Hin & Hnone).
  - by apply elem_of_nil in Hin.
  - cbn [memberAPI.getToken_loop].
    destruct (a !! t) as [tok|] eqn:Htok; [|done].
    unfold mbind, M_bind. rewrite IH; [done|].
    exists t0. split; [|done].
    apply elem_of_cons in Hin as [->|Hin]; [congruence|done].
Qed.

Lemma getToken_run (u : model.User.t) (w : World) :
  let uid := model.User.ID u in
  (∀ t, t ∈ owner_list (UserIDToApiTokenList w) uid → is_Some (ApiTokenList w !! t)) →
  exec (memberAPI.getToken u) w
    = (Next (memberAPI.mkTokenReply http.StatusOK 0 "success" (listing w uid)),
       logs [EvRLock ApiLock; EvRUnlock ApiLock] w).
Proof.
  intros uid H. unfold exec, memberAPI.getToken. run.
  fold uid. fold (owner_list (UserIDToApiTokenList w) uid).
  rewrite (getToken_loop_ok _ _ _ H). run.
  by rewrite !log_logs, !logs_logs.
Qed.

Lemma listed_tokens_are_keys (w : World) (uid : uint64) (t : string) :
  dual_index (ApiTokenList w) (UserIDToApiTokenList w) →
  t ∈ owner_list (UserIDToApiTokenList w) uid →
  ∃ tok, ApiTokenList w !! t = Some tok ∧ model.ApiToken.UserID tok = uid.
Proof.
  intros [_ Hlist] Hin.
  exact (Hlist _ _ _ (owner_list_Some _ _ _ Hin) Hin).
Qed.

(** X1: [getToken] answers with one entry per token listed for the user, in
    the order of the list, each with the note stored in the primary map; it
    takes and releases the read lock and changes nothing else.  It panics
    (nil pointer) exactly in the other case, when some listed token is
    missing from the primary map. *)
Theorem getToken_lists_the_tokens_of_the_user (u : model.User.t) (w : World) :
  let uid := model.User.ID u in
  let listed := owner_list (UserIDToApiTokenList w) uid in
  ((∀ t, t ∈ listed → is_Some (ApiTokenList w !! t)) →
     exec (memberAPI.getToken u) w
       = (Next (memberAPI.mkTokenReply http.StatusOK 0 "success" (listing w uid)),
          logs [EvRLock ApiLock; EvRUnlock ApiLock] w))
  ∧ ((∃ t, t ∈ listed ∧ ApiTokenList w !! t = None) →
       exec (memberAPI.getToken u) w
         = (Panicked, logs [EvRLock ApiLock; EvRUnlock ApiLock] w)).
Proof.
  intros uid listed. split; intros H.
  - by apply getToken_run.
  - unfold exec, memberAPI.getToken. run.
    fold uid. fold (owner_list (UserIDToApiTokenList w) uid). fold listed.
    rewrite (getToken_loop_panics _ _ _ H). run.
    by rewrite !log_logs, !logs_logs.
Qed.

Lemma getToken_lists_the_tokens_of_the_user_witness :
  exec (memberAPI.getToken (model.User.mk 1)) tokens_world
    = (Next (memberAPI.mkTokenReply http.StatusOK 0 "success"
               [memberAPI.mkApiResult "tok-A" "ci"]),
       logs [EvRLock ApiLock; EvRUnlock ApiLock] tokens_world).
Proof.
  apply (proj1 (getToken_lists_the_tokens_of_the_user (model.User.mk 1) tokens_world)).
  intros t Ht. apply list_elem_of_singleton in Ht as ->. by exists token_A.
Defined.

(** X2: on consistent indices, and when the string handed out by the
    generator is not already a token (the handler does not look), the token
    just issued shows up in the listing of its user, last and with the note
    of the request, behind the tokens the user had before, whose entries
    are as they were. *)
Theorem issued_token_is_listed_last (env : Env) (u : model.User.t)
    (tf : controller.TokenForm) (t : string) (w : World) :
  dual_index (ApiTokenList w) (UserIDToApiTokenList w) →
  GenerateRandomString env (trace w) 32 = Ok t →
  ApiTokenList w !! t = None →
  let uid := model.User.ID u in
  let w1 := call (controller.issueNewToken env u (Ok tf)) w in
  exec (memberAPI.getToken u) w1
    = (Next (memberAPI.mkTokenReply http.StatusOK 0 "success"
               (listing w uid ++ [memberAPI.mkApiResult t (controller.Note tf)])),
       logs [EvRLock ApiLock; EvRUnlock ApiLock] w1).
Proof.
  intros Hdual Hgen Hfresh uid w1.
  assert (Hw1 : ApiTokenList w1
                  = <[t := model.ApiToken.mk uid t (controller.Note tf)]> (ApiTokenList w)
                ∧ UserIDToApiTokenList w1
                  = <[uid := owner_list (UserIDToApiTokenList w) uid ++ [t]]>
                      (UserIDToApiTokenList w)).
  { subst w1. by rewrite (issueNewToken_run env u tf t w Hgen). }
  destruct Hw1 as [Ha Hu].
  assert (Hold : ∀ t', t' ∈ owner_list (UserIDToApiTokenList w) uid →
                       t' ≠ t ∧ is_Some (ApiTokenList w !! t')).
  { intros t' Hin. destruct (listed_tokens_are_keys w uid t' Hdual Hin) as (tok & Htok & _).
    split; [congruence | by exists tok]. }
  rewrite getToken_run.
  - assert (Hlisting : listing w1 uid
              = listing w uid ++ [memberAPI.mkApiResult t (controller.Note tf)]).
    { unfold listing, owner_list at 1.
      rewrite Hu, Ha, lookup_insert_eq. cbn [default from_option id].
      rewrite map_app. cbn [map]. apply (f_equal2 app).
      - apply map_ext_in. intros t' Hin%list_elem_of_In.
        destruct (Hold t' Hin) as [Hne _].
        unfold note_of. by rewrite lookup_insert_ne.
      - unfold note_of. by rewrite lookup_insert_eq. }
    fold uid. by rewrite Hlisting.
  - fold uid. unfold owner_list at 1. rewrite Hu, Ha, lookup_insert_eq. cbn [default from_option id].
    intros t' [Hin | ->%list_elem_of_singleton]%elem_of_app.
    + destruct (Hold t' Hin) as [Hne [tok Htok]].
      exists tok. by rewrite lookup_insert_ne.
    + rewrite lookup_insert_eq. by eexists.
Qed.

Lemma issued_token_is_listed_last_witness :
  let w1 := call (controller.issueNewToken issuing_env (model.User.mk 1)
                    (Ok (controller.mkTokenForm "deploy"))) tokens_world in
  exec (memberAPI.getToken (model.User.mk 1)) w1
    = (Next (memberAPI.mkTokenReply http.StatusOK 0 "success"
               (listing tokens_world 1 ++ [memberAPI.mkApiResult "tok-B" "deploy"])),
       logs [EvRLock ApiLock; EvRUnlock ApiLock] w1).
Proof.
  apply (issued_token_is_listed_last issuing_env (model.User.mk 1)
           (controller.mkTokenForm "deploy") "tok-B" tokens_world).
  - exact (proj1 tokens_world_ok).
  - reflexivity.
  - reflexivity.
Defined.

Lemma index_of_last (t : string) (l : list string) :
  t ∉ l → controller.index_of t (l ++ [t]) = Some (length l).
Proof.
  induction l as [|x l IH]; intros Hnot; cbn.
  - by rewrite String.eqb_refl.
  - apply not_elem_of_cons in Hnot as [Hne Hnot].
    destruct (String.eqb_spec x t) as [->|_]; [done|].
    by rewrite IH.
Qed.

(** X3: on a consistent registry, issuing a token and revoking it again
    restores both indices: the primary map and the reverse index are exactly
    what they were, also when it was the user's only token. *)
Theorem issue_then_revoke_restores_indices (env : Env) (u : model.User.t)
    (tf : controller.TokenForm) (t : string) (w : World) :
  token_registry_ok w →
  GenerateRandomString env (trace w) 32 = Ok t →
  ApiTokenList w !! t = None →
  t ≠ "" →
  let w2 := call (controller.deleteToken env t)
              (call (controller.issueNewToken env u (Ok tf)) w) in
  ApiTokenList w2 = ApiTokenList w
  ∧ UserIDToApiTokenList w2 = UserIDToApiTokenList w.
Proof.
  intros (Hdual & Hne & Hdup) Hgen Hfresh Hnonempty w2. subst w2.
  rewrite (issueNewToken_run env u tf t w Hgen).
  set (uid := model.User.ID u).
  set (tok := model.ApiToken.mk uid t (controller.Note tf)).
  set (l := owner_list (UserIDToApiTokenList w) uid).
  match goal with |- context [call _ ?x] => set (w1 := x) end.
  assert (Htok : ApiTokenList w1 !! t = Some tok) by apply lookup_insert_eq.
  rewrite (deleteToken_run env t tok w1 Hnonempty Htok).
  cbn [ApiTokenList UserIDToApiTokenList logs set_tokens w1 model.ApiToken.UserID tok].
  split; [by apply delete_insert_id|].
  assert (Hnot : t ∉ l).
  { intros Hin. destruct (listed_tokens_are_keys w uid t Hdual Hin) as (? & ? & _).
    congruence. }
  assert (Hol : owner_list (<[uid := l ++ [t]]> (UserIDToApiTokenList w)) uid = l ++ [t]).
  { unfold owner_list. by rewrite lookup_insert_eq. }
  unfold unlist. rewrite !Hol, (index_of_last t l Hnot).
  rewrite take_app_length.
  replace (S (length l)) with (length (l ++ [t])) by (rewrite length_app; cbn; lia).
  rewrite drop_all, app_nil_r, insert_insert_eq.
  unfold prune, owner_list. rewrite lookup_insert_eq. cbn [default from_option id].
  destruct l as [|x l'] eqn:Hl; cbn [length Nat.eqb].
  - apply delete_insert_id.
    subst l. unfold owner_list in Hl.
    destruct (UserIDToApiTokenList w !! uid) as [l0|] eqn:Hl0; [|done].
    cbn in Hl. subst l0. by destruct (Hne _ _ Hl0).
  - apply insert_id. subst l. unfold owner_list in Hl.
    destruct (UserIDToApiTokenList w !! uid) as [l0|] eqn:Hl0; cbn in Hl; congruence.
Qed.

Lemma issue_then_revoke_restores_indices_witness :
  let w2 := call (controller.deleteToken issuing_env "tok-B")
              (call (controller.issueNewToken issuing_env (model.User.mk 2)
                       (Ok (controller.mkTokenForm "deploy"))) tokens_world) in
  ApiTokenList w2 = ApiTokenList tokens_world
  ∧ UserIDToApiTokenList w2 = UserIDToApiTokenList tokens_world.
Proof.
  apply (issue_then_revoke_restores_indices issuing_env (model.User.mk 2)
           (controller.mkTokenForm "deploy") "tok-B" tokens_world).
  - exact tokens_world_ok.
  - reflexivity.
  - reflexivity.
  - discriminate.
Defined.




(** X5: [issueNewToken] answers with the error reply, and does nothing
    else, exactly when the binding of the request or the generation of the
    token fails.  Otherwise the token is put into both indices under the
    requesting user and the reply is the success reply, whatever the database
    answered to the insert, whose error the handler does not look at. *)
Theorem issueNewToken_reply (env : Env) (u : model.User.t)
    (body : result controller.TokenForm) (w : World) :
  let uid := model.User.ID u in
  let w' := call (controller.issueNewToken env u body) w in
  let failed e :=
    w' = log (EvJSON http.StatusOK
                (model.Response.mk http.StatusBadRequest ("请求错误：" +:+ e) [])) w in
  match body with
  | Err e => failed e
  | Ok tf =>
      match GenerateRandomString env (trace w) 32 with
      | Err e => failed e
      | Ok t =>
          let tok := model.ApiToken.mk uid t (controller.Note tf) in
          ApiTokenList w' !! t = Some tok
          ∧ t ∈ owner_list (UserIDToApiTokenList w') uid
          ∧ db_calls (trace w') = db_calls (trace w) ++ [DB_Create_ApiToken tok]
          ∧ replies (trace w')
              = replies (trace w)
                ++ [model.Response.mk http.StatusOK "success"
                      [("token", t); ("note", controller.Note tf)]]
      end
  end.
Proof.
  intros uid w' failed. subst w' failed.
  destruct body as [tf|e]; [|done].
  destruct (GenerateRandomString env (trace w) 32) as [t|e] eqn:Hgen.
  - rewrite (issueNewToken_run env u tf t w Hgen).
    cbn [ApiTokenList UserIDToApiTokenList trace logs set_tokens].
    fold uid. split; [apply lookup_insert_eq|]. split; [|split].
    + unfold owner_list at 1. rewrite lookup_insert_eq. cbn [default from_option id].
      apply elem_of_app. right. by apply list_elem_of_singleton.
    + by rewrite db_calls_app.
    + by rewrite replies_app.
  - unfold controller.issueNewToken. run. by rewrite Hgen.
Qed.

(** ** The fan-outs *)

(** X6: [forceUpdate] only reads the registries: whatever the request, the
    world afterwards is the world before with events added to the trace; in
    these events every send is made while no registry lock is held, and
    every lock taken has been released. *)
Theorem forceUpdate_only_reads_and_sends_unlocked (env : Env)
    (body : result (list uint64)) (w : World) :
  ∃ evs,
    call (controller.forceUpdate env body) w = logs evs w
    ∧ sends_outside_locks 0 evs = true
    ∧ locks_held 0 evs = 0%nat.
Proof.
  destruct body as [ids|e].
  - destruct (forceUpdate_loop_spec env ids "" w [])
      as (os & evs & Hloop & _ & _ & _ & Hlocks & Hheld).
    exists (evs ++ [EvJSON http.StatusOK
                      (model.Response.mk http.StatusOK (join (zip_with report ids os)) [])]).
    split; [|split].
    + unfold controller.forceUpdate, call. unfold mbind, M_bind at 1.
      rewrite Hloop. run. by rewrite log_logs, logs_logs.
    + by rewrite sends_outside_locks_app, Hlocks.
    + by rewrite locks_held_app, Hheld.
  - by exists [EvJSON http.StatusOK (model.Response.mk http.StatusBadRequest e [])].
Qed.

Lemma report_loop_spec (env : Env) (servers : list (option model.Server.t)) :
  ∀ (w : World) (ds : list (World → World)),
  ∃ evs,
    main.report_loop env servers (mkFrame w ds) = (Next tt, mkFrame (logs evs w) ds)
    ∧ map (λ s, (s.1.1, s.1.2)) (sends evs)
        = map (λ stream, (stream, report_task)) (live_streams servers)
    ∧ forallb is_send evs = true.
Proof.
  induction servers as [|server servers IH]; intros w ds.
  - exists []. by rewrite logs_nil.
  - cbn [main.report_loop].
    change (live_streams (server :: servers))
      with (match stream_of server with
            | Some stream => stream :: live_streams servers
            | None => live_streams servers
            end).
    destruct (stream_of server) as [stream|].
    + unfold controller.Send. run.
      set (e := send_error env (trace w) stream _).
      destruct (IH (log (EvSend stream report_task e) w) ds) as (evs & Hrun & Hsends & Hall).
      exists (EvSend stream report_task e :: evs).
      split; [|split].
      * fold report_task. fold e. rewrite Hrun, log_logs, logs_logs. done.
      * cbn [sends map fst snd]. by rewrite Hsends.
      * done.
    + apply IH.
Qed.

(** X7: the report-host-info fan-out sleeps, takes the read lock of the
    server registry and releases it at the very end; in between it does
    nothing but send, one report task to each registered agent that has a
    stream and none to the others, going on whatever the sends return.  The
    agents are reached in the order in which the range over the registry
    hands them out, which is any enumeration of the registry; the registries
    are left as they were. *)
Theorem dispatchReportInfoTask_reaches_every_live_agent (env : Env) (w : World) :
  range_ServerList env (ServerList w) ≡ₚ map_to_list (ServerList w) →
  ∃ evs,
    call (main.dispatchReportInfoTask env) w
      = logs ([EvSleep 15; EvRLock ServerLock] ++ evs ++ [EvRUnlock ServerLock]) w
    ∧ map (λ s, (s.1.1, s.1.2)) (sends evs)
        ≡ₚ map (λ stream, (stream, report_task))
               (live_streams (map snd (map_to_list (ServerList w))))
    ∧ forallb is_send evs = true.
Proof.
  intros Hrange.
  unfold main.dispatchReportInfoTask, call. run.
  destruct (report_loop_spec env (map snd (range_ServerList env (ServerList w)))
              (log (EvRLock ServerLock) (log (EvSleep 15) w))
              [log (EvRUnlock ServerLock)]) as (evs & Hrun & Hsends & Hall).
  exists evs. rewrite Hrun. run.
  split; [by rewrite !log_logs, !logs_logs | split; [|done]].
  rewrite Hsends. unfold live_streams.
  apply Permutation_map, omap_Permutation, Permutation_map, Hrange.
Qed.

Lemma dispatchReportInfoTask_reaches_every_live_agent_witness :
  ∃ evs,
    call (main.dispatchReportInfoTask lossy_env) fleet_world
      = logs ([EvSleep 15; EvRLock ServerLock] ++ evs ++ [EvRUnlock ServerLock]) fleet_world
    ∧ map (λ s, (s.1.1, s.1.2)) (sends evs)
        ≡ₚ map (λ stream, (stream, report_task))
               (live_streams (map snd (map_to_list (ServerList fleet_world))))
    ∧ forallb is_send evs = true.
Proof.
  apply (dispatchReportInfoTask_reaches_every_live_agent lossy_env fleet_world).
  reflexivity.
Defined.

(** ** Opening a session *)

(** X8: a request without an authorized user, or one for which no session
    ID can be generated, leaves the world exactly as it was: no session is
    created, nothing is sent and nothing is written to the caller. *)
Theorem createFM_without_user_or_id_does_nothing (env : Env) (IdString : string)
    (authorized : bool) (w : World) :
  authorized = false ∨ (∃ e, GenerateUUID env (trace w) = Err e) →
  call (controller.createFM env IdString authorized) w = w
  ∧ panics (controller.createFM env IdString authorized) w = false.
Proof.
  intros [-> | [e He]]; [done|].
  destruct authorized; [|done].
  unfold controller.createFM. cbn [negb]. run. by rewrite He.
Qed.

Lemma createFM_without_user_or_id_does_nothing_witness :
  call (controller.createFM quiet_env "1" false) fleet_world = fleet_world
  ∧ panics (controller.createFM quiet_env "1" false) fleet_world = false.
Proof.
  apply (createFM_without_user_or_id_does_nothing quiet_env "1" false fleet_world).
  by left.
Defined.

(** X9: [createFM] renders the session page in one case only: the request
    is authorized, a session ID was generated, the agent ID parses, the agent
    is registered with a live stream, and the open-session task carrying the
    session ID was sent on that stream without error; the page is then the
    last thing the handler does.  In every other case the handler writes
    nothing to the caller, neither a page nor an error reply. *)
Theorem createFM_renders_page_only_after_send (env : Env) (IdString : string)
    (authorized : bool) (w : World) :
  let w' := call (controller.createFM env IdString authorized) w in
  (∃ streamId serverId stream,
     authorized = true
     ∧ GenerateUUID env (trace w) = Ok streamId
     ∧ strconv.Atoi IdString = (serverId, None)
     ∧ live_stream w (strconv.uint64_of_int serverId) = Some stream
     ∧ w' = logs [EvRPC (CallCreateStream streamId);
                  EvRLock ServerLock; EvRUnlock ServerLock;
                  EvSend stream
                    (proto.mkTask model.TaskTypeFM (Marshal_TaskFM env streamId)) None;
                  EvHTML http.StatusOK "dashboard-" [("SessionID", streamId)]]
               (set_ioStreams (<[streamId := Created]> (ioStreams w)) w))
  ∨ (∃ evs, trace w' = trace w ++ evs ∧ quiet is_response evs = true).
Proof.
  intros w'. subst w'. unfold controller.createFM.
  destruct authorized; cbn [negb]; [|right; exists []; by rewrite app_nil_r].
  run. destruct (GenerateUUID env (trace w)) as [streamId|e] eqn:Hid; run;
    [|right; exists []; by rewrite app_nil_r].
  destruct (strconv.Atoi IdString) as [serverId [e|]] eqn:Hatoi; run;
    [right; by eexists [_]|].
  unfold live_stream, stream_of.
  destruct (deref (ServerList w) _) as [srv|] eqn:Hsrv; run;
    [|right; rewrite <- !app_assoc; by eexists].
  destruct (model.Server.TaskStream srv) as [stream|] eqn:Hstream; run;
    [|right; rewrite <- !app_assoc; by eexists].
  destruct (send_error env _ stream _) as [e|] eqn:Hsend; run.
  - right. rewrite <- !app_assoc. by eexists.
  - left. exists streamId, serverId, stream.
    rewrite Hsrv. repeat split; try done.
    unfold log, logs, set_ioStreams. cbn. by rewrite <- !app_assoc.
Qed.

(** X10: when the agent is registered but has no stream, [createFM] runs
    into the nil stream and panics: the session has been created and stays,
    nothing was sent and nothing is written to the caller by the handler. *)
Theorem createFM_panics_on_agent_without_stream (env : Env) (IdString streamId : string)
    (serverId : Z) (srv : model.Server.t) (w : World) :
  GenerateUUID env (trace w) = Ok streamId →
  strconv.Atoi IdString = (serverId, None) →
  deref (ServerList w) (strconv.uint64_of_int serverId) = Some srv →
  model.Server.TaskStream srv = None →
  panics (controller.createFM env IdString true) w = true
  ∧ call (controller.createFM env IdString true) w
      = logs [EvRPC (CallCreateStream streamId); EvRLock ServerLock; EvRUnlock ServerLock]
          (set_ioStreams (<[streamId := Created]> (ioStreams w)) w).
Proof.
  intros Hid Hatoi Hsrv Hstream. unfold controller.createFM. cbn [negb]. run.
  rewrite Hid. run. rewrite Hatoi. run. rewrite Hsrv. run. rewrite Hstream.
  split; [done|]. run. unfold log, logs, set_ioStreams. cbn. by rewrite <- !app_assoc.
Qed.

Lemma createFM_panics_on_agent_without_stream_witness :
  panics (controller.createFM quiet_env "3" true) fleet_world = true
  ∧ call (controller.createFM quiet_env "3" true) fleet_world
      = logs [EvRPC (CallCreateStream "sess-1"); EvRLock ServerLock; EvRUnlock ServerLock]
          (set_ioStreams (<["sess-1" := Created]> (ioStreams fleet_world)) fleet_world).
Proof.
  apply (createFM_panics_on_agent_without_stream quiet_env "3" "sess-1" 3%Z
           (model.Server.mk 3 None) fleet_world); reflexivity.
Defined.

(** ** Deleting by kind: what happens on bad IDs and database errors *)

Lemma ParseUint_loop_syntax (s : string) (n v : N) :
  strconv.ParseUint_loop s n = (v, Some strconv.ErrSyntax) → v = 0.
Proof.
  revert n; induction s as [|c s IH]; intros n; cbn [strconv.ParseUint_loop]; [done|].
  destruct (strconv.digit c) as [d|]; [|by intros [= <-]].
  cbv zeta. destruct (_ <=? n); [done|].
  destruct (_ || _); [done|]. apply IH.
Qed.

Lemma ParseUint_loop_range (s : string) (n v : N) :
  strconv.ParseUint_loop s n = (v, Some strconv.ErrRange) → v = strconv.maxUint64.
Proof.
  revert n; induction s as [|c s IH]; intros n; cbn [strconv.ParseUint_loop]; [done|].
  destruct (strconv.digit c) as [d|]; [|done].
  cbv zeta. destruct (_ <=? n); [by intros [= <-]|].
  destruct (_ || _); [by intros [= <-]|]. apply IH.
Qed.

Lemma ParseUint_loop_non_digit (ds : string) (c : ascii) (rest : string) (n : N) :
  strconv.digit c = None →
  snd (strconv.ParseUint_loop ds n) = None →
  strconv.ParseUint_loop (ds +:+ String c rest) n = (0, Some strconv.ErrSyntax).
Proof.
  intros Hc. revert n; induction ds as [|d ds IH]; intros n.
  - intros _. change ("" +:+ String c rest) with (String c rest).
    cbn [strconv.ParseUint_loop]. by rewrite Hc.
  - rewrite append_String. cbn [strconv.ParseUint_loop].
    destruct (strconv.digit d) as [v|]; [|done].
    cbv zeta. destruct (_ <=? n); [done|].
    destruct (_ || _); [done|]. apply IH.
Qed.

(** X11: an ID that is empty, or in which a byte that is not a decimal
    digit comes after digits (possibly none) whose value fits into 64 bits,
    is refused by [delete] for every entity kind: the syntax error of the
    parse is dropped, but the value it comes with is 0; the refusal is the
    only thing that happens. *)
Theorem delete_refuses_unparsable_id (env : Env) (model_ idParam : string) (w : World) :
  idParam = ""
  ∨ (∃ ds c rest,
       idParam = ds +:+ String c rest
       ∧ strconv.digit c = None
       ∧ snd (strconv.ParseUint_loop ds 0) = None) →
  call (controller.delete env model_ idParam) w
    = log (EvJSON http.StatusOK
             (model.Response.mk http.StatusBadRequest "错误的 Server ID" [])) w.
Proof.
  intros Hid.
  assert (Hparse : strconv.ParseUint idParam = (0, Some strconv.ErrSyntax)).
  { destruct Hid as [->|(ds & c & rest & -> & Hc & Hds)]; [done|].
    pose proof (ParseUint_loop_non_digit ds c rest 0 Hc Hds) as Hloop.
    unfold strconv.ParseUint.
    destruct (ds +:+ String c rest) eqn:Happ; [|exact Hloop].
    destruct ds; discriminate Happ. }
  unfold controller.delete. by rewrite Hparse.
Qed.

Lemma delete_refuses_unparsable_id_witness :
  call (controller.delete quiet_env "cron" "12x") jobs_world
    = log (EvJSON http.StatusOK
             (model.Response.mk http.StatusBadRequest "错误的 Server ID" [])) jobs_world.
Proof.
  apply (delete_refuses_unparsable_id quiet_env "cron" "12x" jobs_world).
  right. exists "12", "x"%char, "". repeat split; reflexivity.
Defined.

(** X12: an ID with too many digits is not refused: the range error of the
    parse is dropped and the handler goes on with the largest 64-bit ID, so
    the request behaves exactly like one for 18446744073709551615. *)
Theorem delete_takes_overflowing_id_as_largest (env : Env) (model_ idParam : string)
    (w : World) :
  snd (strconv.ParseUint idParam) = Some strconv.ErrRange →
  call (controller.delete env model_ idParam) w
    = call (controller.delete env model_ "18446744073709551615") w.
Proof.
  intros Herr.
  assert (Hmax : fst (strconv.ParseUint idParam) = strconv.maxUint64).
  { destruct (strconv.ParseUint idParam) as [v e] eqn:Hparse. cbn in *. subst e.
    unfold strconv.ParseUint in Hparse.
    destruct idParam; [done|].
    by apply ParseUint_loop_range in Hparse. }
  unfold controller.delete. by rewrite Hmax.
Qed.

Lemma delete_takes_overflowing_id_as_largest_witness :
  call (controller.delete quiet_env "cron" "99999999999999999999") jobs_world
    = call (controller.delete quiet_env "cron" "18446744073709551615") jobs_world.
Proof.
  apply (delete_takes_overflowing_id_as_largest quiet_env "cron"
           "99999999999999999999" jobs_world).
  reflexivity.
Defined.



(** ** Creating and editing scheduled jobs *)

(** The paths of [addOrEditCron], each run to its end. *)
Ltac addOrEditCron_paths env body :=
  unfold controller.addOrEditCron;
  destruct body as [?cf|?e0];
    [destruct (Unmarshal_uint64s env (controller.ServersRaw cf)) as [?servers|?e1]|];
    cbn [model.Cron.TaskType model.Cron.Cover model.Cron.zero];
    run; repeat (oracle_case; run);
    try (rewrite drop_cron_spec; run).

(** The trace of a path, as the old trace followed by the new events. *)
Ltac new_events :=
  cbn [trace Crons Cron log logs set_Crons set_Cron discard_job];
  rewrite <- ?app_assoc; cbn [app].

(** X14: a request to create or edit a job either goes through (reply 200)
    or is answered with one error reply and leaves the job registry as it
    was, without deregistering any timer and without dropping or storing a
    record: every handle registered in the engine is still registered.  (The
    engine may have gained a timer: the one added for the request stays
    when the commit fails after it.) *)
Theorem addOrEditCron_goes_through_or_leaves_registry (env : Env)
    (CronTypeCronTask CronCoverAlertTrigger : uint8)
    (body : result controller.cronForm) (w : World) :
  let w' := call (controller.addOrEditCron env CronTypeCronTask CronCoverAlertTrigger body) w in
  replied_ok w w'
  ∨ (Crons w' = Crons w
     ∧ (∀ h, is_Some (cron.entries (Cron w) !! h) → is_Some (cron.entries (Cron w') !! h))
     ∧ ∃ evs msg,
         trace w' = trace w ++ evs
         ∧ quiet on_job_registry evs = true
         ∧ replies evs = [model.Response.mk http.StatusBadRequest msg []]).
Proof.
  addOrEditCron_paths env body.
  all: first
    [ right; split; [reflexivity|]; split;
      [ intros h Hh; cbn [Cron log logs set_Crons set_Cron cron.entries];
        rewrite ?lookup_insert_is_Some;
        solve [auto | destruct (decide ((cron.nextID (Cron w) + 1)%Z = h)); auto]
      | new_events; eexists _, _; split; [reflexivity|]; split; reflexivity ]
    | left; unfold replied_ok; new_events; rewrite replies_app; f_equal;
      unfold deregistration; destruct (old_timer _ _); reflexivity ].
Qed.

(** X15: [addOrEditCron] ends every transaction it begins: a request
    refused for its trigger policy opens none; otherwise [DB.Begin] is
    followed, after the create or save made on the transaction, by exactly
    one [Commit] or [Rollback], and nothing is done on a transaction that is
    not open; a request that goes through has had its commit succeed. *)
Theorem addOrEditCron_closes_its_transaction (env : Env)
    (CronTypeCronTask CronCoverAlertTrigger : uint8)
    (body : result controller.cronForm) (w : World) :
  let w' := call (controller.addOrEditCron env CronTypeCronTask CronCoverAlertTrigger body) w in
  ∃ evs,
    trace w' = trace w ++ evs
    ∧ transactions_closed false evs = true
    ∧ (replied_ok w w' → In (EvDB Tx_Commit None) evs).
Proof.
  addOrEditCron_paths env body.
  all: new_events; unfold deregistration; try destruct (old_timer _ _); cbn [app].
  all: eexists; split; [reflexivity|]; split; [reflexivity|].
  all: intros H; first [not_ok H | cbn; tauto].
Qed.



(** ** Consistency of the job registry with the engine *)

Section consistency.
Context (cs : gmap uint64 (option model.Cron.t)) (e : cron.Cron).
Hypothesis Hok : consistent cs e.

Lemma consistent_after_AddFunc (x : string * model.Cron.t) :
  consistent cs (cron.mk (<[(cron.nextID e + 1)%Z := x]> (cron.entries e))
                         (cron.nextID e + 1)%Z).
Proof.
  destruct Hok as (Hlive & Hbound & Hpos & Hinj).
  split; [|split; [|split]]; cbn [cron.entries cron.nextID].
  - intros id cr Hcr Hnz. rewrite lookup_insert_is_Some. right.
    split; [|by eapply Hlive].
    intros Heq. pose proof (Hbound _ (Hlive _ _ Hcr Hnz)). lia.
  - intros h [<- | [_ Hh]]%lookup_insert_is_Some; [lia|].
    pose proof (Hbound _ Hh). lia.
  - lia.
  - done.
Qed.

Lemma consistent_after_drop (id : uint64) :
  consistent (delete id cs) (remove_old cs e id).
Proof.
  destruct Hok as (Hlive & Hbound & Hpos & Hinj).
  assert (Hsub : ∀ h, is_Some (cron.entries (remove_old cs e id) !! h) →
                      is_Some (cron.entries e !! h)).
  { intros h. unfold remove_old.
    destruct (deref cs id) as [cr|]; [|done].
    destruct (model.Cron.CronJobID cr =? 0)%Z; [done|].
    cbn [cron.Remove cron.entries]. rewrite lookup_delete_is_Some. tauto. }
  assert (Hnext : cron.nextID (remove_old cs e id) = cron.nextID e).
  { unfold remove_old. destruct (deref cs id) as [cr|]; [|done].
    by destruct (model.Cron.CronJobID cr =? 0)%Z. }
  split; [|split; [|split]].
  - intros id' cr' [Hne Hcr']%lookup_delete_Some Hnz.
    unfold remove_old, deref.
    destruct (cs !! id) as [[cr|]|] eqn:Hcr; cbn [default from_option Datatypes.id];
      try by eapply Hlive.
    destruct (Z.eqb_spec (model.Cron.CronJobID cr) 0) as [Hz|Hz]; [by eapply Hlive|].
    cbn [cron.Remove cron.entries]. rewrite lookup_delete_is_Some.
    split; [|by eapply Hlive].
    intros Heq. apply Hne. by eapply (Hinj id id' cr cr').
  - intros h Hh. rewrite Hnext. by apply Hbound, Hsub.
  - by rewrite Hnext.
  - intros id1 id2 cr1 cr2 [_ H1]%lookup_delete_Some [_ H2]%lookup_delete_Some.
    by apply Hinj.
Qed.

Lemma consistent_store_plain (id : uint64) (cr : model.Cron.t) :
  model.Cron.CronJobID cr = 0%Z →
  consistent (<[id := Some cr]> cs) e.
Proof.
  intros Hz. destruct Hok as (Hlive & Hbound & Hpos & Hinj).
  split; [|split; [|split]]; try done.
  - intros id' cr' Hcr' Hnz. rewrite lookup_insert in Hcr'.
    case_decide; simplify_eq; by eauto.
  - intros id1 id2 cr1 cr2 H1 H2 Hnz Heq. rewrite lookup_insert in H1, H2.
    repeat case_decide; simplify_eq; try done; try congruence.
    by eapply Hinj.
Qed.

Lemma consistent_store_timer (id : uint64) (cr : model.Cron.t) :
  is_Some (cron.entries e !! model.Cron.CronJobID cr) →
  (∀ id' cr', cs !! id' = Some (Some cr') →
              model.Cron.CronJobID cr' ≠ model.Cron.CronJobID cr) →
  consistent (<[id := Some cr]> cs) e.
Proof.
  intros Hlive' Hfresh. destruct Hok as (Hlive & Hbound & Hpos & Hinj).
  split; [|split; [|split]]; try done.
  - intros id' cr' Hcr' Hnz. rewrite lookup_insert in Hcr'.
    case_decide; simplify_eq; by eauto.
  - intros id1 id2 cr1 cr2 H1 H2 Hnz Heq. rewrite lookup_insert in H1, H2.
    repeat case_decide; simplify_eq; try done;
      first [ by eapply Hinj
            | exfalso; eapply Hfresh; [eassumption | congruence] ].
Qed.

End consistency.

(** Replacing the record of [id] by one that holds the handle just handed
    out by [AddFunc]. *)
Lemma consistent_replace_timer (cs : gmap uint64 (option model.Cron.t)) (e : cron.Cron)
    (id : uint64) (cr : model.Cron.t) (x : string * model.Cron.t) :
  consistent cs e →
  model.Cron.CronJobID cr = (cron.nextID e + 1)%Z →
  consistent (<[id := Some cr]> (delete id cs))
    (remove_old cs
       (cron.mk (<[(cron.nextID e + 1)%Z := x]> (cron.entries e)) (cron.nextID e + 1)%Z)
       id).
Proof.
  intros Hok Hcr.
  pose proof (consistent_after_AddFunc cs e Hok x) as Hadd.
  pose proof (consistent_after_drop _ _ Hadd id) as Hdrop.
  destruct Hok as (Hlive & Hbound & Hpos & Hinj).
  apply consistent_store_timer; [done| |].
  - rewrite Hcr. unfold remove_old, deref.
    destruct (cs !! id) as [[cr0|]|] eqn:Hcr0; cbn [default from_option Datatypes.id];
      try (cbn [cron.entries]; by rewrite lookup_insert_eq).
    destruct (Z.eqb_spec (model.Cron.CronJobID cr0) 0) as [Hz|Hz];
      [cbn [cron.entries]; by rewrite lookup_insert_eq|].
    cbn [cron.Remove cron.entries].
    rewrite lookup_delete_ne, lookup_insert_eq; [done|].
    intros Heq. pose proof (Hbound _ (Hlive _ _ Hcr0 Hz)). lia.
  - intros id' cr' [_ Hcr']%lookup_delete_Some. rewrite Hcr.
    destruct (Z.eq_dec (model.Cron.CronJobID cr') 0%Z) as [Hz|Hz]; [lia|].
    pose proof (Hbound _ (Hlive _ _ Hcr' Hz)). lia.
Qed.

(** X17: the job registry and the scheduler engine stay consistent under
    every request to create, edit or delete: if every timer handle held by a
    record is registered in the engine, no two records hold the same handle
    and the engine has handed out no handle beyond its counter, then the same
    holds after [addOrEditCron] and after [delete], on their successful and
    on their failing paths alike. *)
Theorem job_registry_and_engine_stay_consistent (env : Env) (w : World) :
  timers_consistent w →
  (∀ CronTypeCronTask CronCoverAlertTrigger body,
     timers_consistent
       (call (controller.addOrEditCron env CronTypeCronTask CronCoverAlertTrigger body) w))
  ∧ (∀ model_ idParam, timers_consistent (call (controller.delete env model_ idParam) w)).
Proof.
  intros Hok. split.
  - intros CT CA body. unfold timers_consistent.
    addOrEditCron_paths env body.
    all: cbn [Crons Cron log logs set_Crons set_Cron discard_job]; try exact Hok.
    all: try (apply consistent_after_AddFunc; exact Hok).
    all: match goal with
         | |- context [engine_without ?w1 ?id] =>
             change (engine_without w1 id) with (remove_old (Crons w1) (Cron w1) id);
             cbn [Crons Cron log logs set_Crons set_Cron]
         end.
    all: first
      [ apply consistent_replace_timer; [exact Hok | reflexivity]
      | apply consistent_store_plain;
          [apply consistent_after_drop; exact Hok | reflexivity] ].
  - intros model_ idParam. unfold timers_consistent, controller.delete.
    destruct (_ <? 1); [exact Hok|].
    destruct (String.eqb model_ "nat");
      [|destruct (String.eqb model_ "monitor");
        [|destruct (String.eqb model_ "cron");
          [|destruct (String.eqb model_ "alert-rule")]]].
    all: run; repeat (oracle_case; run); try (rewrite drop_cron_spec; run).
    all: cbn [Crons Cron log logs set_Crons set_Cron discard_job]; try exact Hok.
    change (engine_without ?w1 ?id) with (remove_old (Crons w1) (Cron w1) id).
    cbn [Crons Cron log logs set_Crons set_Cron].
    apply consistent_after_drop; exact Hok.
Qed.

Lemma jobs_world_consistent : timers_consistent jobs_world.
Proof.
  unfold timers_consistent, jobs_world. cbn [Crons Cron].
  split; [|split; [|split]]; cbn [cron.entries cron.nextID].
  - intros id cr [<- [= <-]]%lookup_singleton_Some _. by rewrite lookup_singleton_eq.
  - intros h [x [<- _]%lookup_singleton_Some]. lia.
  - lia.
  - by intros id1 id2 cr1 cr2 [<- _]%lookup_singleton_Some [<- _]%lookup_singleton_Some.
Qed.

Lemma job_registry_and_engine_stay_consistent_witness :
  timers_consistent (call (controller.addOrEditCron quiet_env 0 2 (Ok backup_form)) jobs_world)
  ∧ timers_consistent (call (controller.delete quiet_env "cron" "5") jobs_world).
Proof.
  pose proof (job_registry_and_engine_stay_consistent quiet_env jobs_world
                jobs_world_consistent) as [Hedit Hdelete].
  split; [apply Hedit | apply Hdelete].
Defined.

(** ** The handlers of the persisted entities *)

Example Split_domains :
  memberAPI.Split "a.example,b.example,,c" "," = ["a.example"; "b.example"; ""; "c"]
  ∧ memberAPI.Split "" "," = [""].
Proof. split; reflexivity. Qed.

Lemma ToASCII_loop_None (ToASCII : string → result string) (domains converted : list string) :
  memberAPI.ToASCII_loop ToASCII domains = (converted, None)
  ↔ Forall2 (λ d a, ToASCII d = Ok a) domains converted.
Proof.
  revert converted; induction domains as [|d domains IH]; intros converted;
    cbn [memberAPI.ToASCII_loop].
  - split; [intros [= <-]; constructor | by intros ->%Forall2_nil_inv_l].
  - destruct (ToASCII d) as [a|e] eqn:Hd.
    + destruct (memberAPI.ToASCII_loop ToASCII domains) as [rest' err] eqn:Hloop.
      split.
      * intros [= <- ->]. constructor; [done|]. by apply IH.
      * intros (a' & rest & Ha & Hrest & ->)%Forall2_cons_inv_l.
        apply IH in Hrest. congruence.
    + split; [done|].
      intros (a' & rest & Ha & _ & _)%Forall2_cons_inv_l. congruence.
Qed.

Lemma ToASCII_loop_Some (ToASCII : string → result string) (domains l : list string)
    (msg : string) :
  memberAPI.ToASCII_loop ToASCII domains = (l, Some msg) →
  ∃ pre d rest e,
    domains = pre ++ d :: rest
    ∧ Forall (λ d', ∃ a, ToASCII d' = Ok a) pre
    ∧ ToASCII d = Err e
    ∧ msg = "域名 " +:+ d +:+ " 解析错误: " +:+ e.
Proof.
  revert l; induction domains as [|d domains IH]; intros l;
    cbn [memberAPI.ToASCII_loop]; [done|].
  destruct (ToASCII d) as [a|e] eqn:Hd.
  - destruct (memberAPI.ToASCII_loop ToASCII domains) as [rest' err] eqn:Hloop.
    intros [= <- ->].
    destruct (IH _ eq_refl) as (pre & d' & rest & e & -> & Hpre & Hd' & ->).
    exists (d :: pre), d', rest, e. repeat split; try done.
    constructor; [by exists a | done].
  - intros [= <- <-]. exists [], d, domains, e. repeat split; done.
Qed.

(** X18: a DDNS profile whose retry count lies in 1..10 and whose domains
    all convert to ASCII reaches the database with the values of the form
    and the converted domains, in the order of the comma-separated input:
    it is created when its ID is 0 and saved otherwise.  When the database
    accepts the row, the update callback and the code-200 reply follow, in
    this order; when it refuses, the only other effect is the code-400 reply
    with the database error. *)
Theorem addOrEditDDNS_persists_converted_domains (ToASCII : string → result string)
    (db_create db_save : memberAPI.DDNSProfile → error) (df : memberAPI.ddnsForm)
    (converted : list string) :
  1 ≤ memberAPI.df_MaxRetries df ≤ 10 →
  Forall2 (λ d a, ToASCII d = Ok a)
    (memberAPI.Split (memberAPI.df_DomainsRaw df) ",") converted →
  let row :=
    memberAPI.mkDDNSProfile (memberAPI.df_ID df)
      (String.eqb (memberAPI.df_EnableIPv4 df) "on")
      (String.eqb (memberAPI.df_EnableIPv6 df) "on")
      (memberAPI.df_MaxRetries df) (memberAPI.df_Name df) (memberAPI.df_Provider df)
      (memberAPI.df_DomainsRaw df) converted (memberAPI.df_AccessID df)
      (memberAPI.df_AccessSecret df) (memberAPI.df_WebhookURL df)
      (memberAPI.df_WebhookMethod df) (memberAPI.df_WebhookRequestType df)
      (memberAPI.df_WebhookRequestBody df) (memberAPI.df_WebhookHeaders df) in
  let err := if memberAPI.df_ID df =? 0 then db_create row else db_save row in
  let write := if memberAPI.df_ID df =? 0 then memberAPI.DBCreate row err
               else memberAPI.DBSave row err in
  memberAPI.addOrEditDDNS ToASCII db_create db_save (Ok df)
    = match err with
      | None =>
          [write; memberAPI.Call memberAPI.OnDDNSUpdate None;
           memberAPI.Reply (model.Response.mk http.StatusOK "" [])]
      | Some e =>
          [write;
           memberAPI.Reply (model.Response.mk http.StatusBadRequest ("请求错误：" +:+ e) [])]
      end.
Proof.
  intros [Hlo Hhi] Hconv row err write. apply ToASCII_loop_None in Hconv.
  unfold memberAPI.addOrEditDDNS.
  apply N.ltb_ge in Hlo. assert (Hhi' : (10 <? memberAPI.df_MaxRetries df) = false)
    by (apply N.ltb_ge; lia).
  rewrite Hlo, Hhi'. cbn [orb]. rewrite Hconv. fold row.
  unfold memberAPI.persist, memberAPI.conclude. cbn [memberAPI.p_ID row].
  subst write err.
  destruct (memberAPI.df_ID df =? 0); [destruct (db_create row) | destruct (db_save row)];
    reflexivity.
Qed.

Lemma addOrEditDDNS_persists_converted_domains_witness :
  let row :=
    memberAPI.mkDDNSProfile 0 true false 3 "home" "webhook" "a.example,b.example"
      ["a.example"; "b.example"] "" "" "https://ddns.example/update" 1 1 "" "" in
  memberAPI.addOrEditDDNS plain_ToASCII (λ _, None) (λ _, Some "disk full") (Ok home_ddns)
    = [memberAPI.DBCreate row None; memberAPI.Call memberAPI.OnDDNSUpdate None;
       memberAPI.Reply (model.Response.mk http.StatusOK "" [])].
Proof.
  apply (addOrEditDDNS_persists_converted_domains plain_ToASCII
           (λ _, None) (λ _, Some "disk full") home_ddns ["a.example"; "b.example"]).
  - cbn. lia.
  - repeat constructor.
Defined.

(** X19: a DDNS profile with a retry count outside 1..10, or with a domain
    that does not convert, never reaches the database and triggers no
    callback: the only effect is one error reply, which for a bad domain
    names the first domain of the input that fails. *)
Theorem addOrEditDDNS_refuses_bad_profile (ToASCII : string → result string)
    (db_create db_save : memberAPI.DDNSProfile → error) (df : memberAPI.ddnsForm) :
  let refused msg :=
    memberAPI.addOrEditDDNS ToASCII db_create db_save (Ok df)
      = [memberAPI.Reply (model.Response.mk http.StatusBadRequest ("请求错误：" +:+ msg) [])] in
  ((memberAPI.df_MaxRetries df < 1 ∨ 10 < memberAPI.df_MaxRetries df) →
     refused "重试次数必须为大于 1 且不超过 10 的整数")
  ∧ (∀ pre d rest e,
       1 ≤ memberAPI.df_MaxRetries df ≤ 10 →
       memberAPI.Split (memberAPI.df_DomainsRaw df) "," = pre ++ d :: rest →
       Forall (λ d', ∃ a, ToASCII d' = Ok a) pre →
       ToASCII d = Err e →
       refused ("域名 " +:+ d +:+ " 解析错误: " +:+ e)).
Proof.
  intros refused. subst refused. split.
  - intros Hbad. unfold memberAPI.addOrEditDDNS.
    assert (Hor : (memberAPI.df_MaxRetries df <? 1) || (10 <? memberAPI.df_MaxRetries df) = true).
    { apply orb_true_iff. destruct Hbad; [left | right]; by apply N.ltb_lt. }
    by rewrite Hor.
  - intros pre d rest e [Hlo Hhi] Hsplit Hpre Hd.
    unfold memberAPI.addOrEditDDNS.
    apply N.ltb_ge in Hlo. assert (Hhi' : (10 <? memberAPI.df_MaxRetries df) = false)
      by (apply N.ltb_ge; lia).
    rewrite Hlo, Hhi'. cbn [orb].
    destruct (memberAPI.ToASCII_loop ToASCII _) as [l [msg|]] eqn:Hloop.
    + apply ToASCII_loop_Some in Hloop
        as (pre' & d' & rest' & e' & Hsplit' & Hpre' & Hd' & ->).
      rewrite Hsplit in Hsplit'.
      assert (pre = pre' ∧ d = d') as [<- <-].
      { clear -Hsplit' Hpre Hpre' Hd Hd'.
        revert pre' Hsplit' Hpre'. induction pre as [|x pre IH]; intros [|y pre'] Heq Hpre'.
        - by injection Heq.
        - injection Heq as -> _. apply Forall_cons in Hpre' as [[a Ha] _]. congruence.
        - injection Heq as -> _. apply Forall_cons in Hpre as [[a Ha] _]. congruence.
        - injection Heq as -> Heq. apply Forall_cons in Hpre as [_ Hpre].
          apply Forall_cons in Hpre' as [_ Hpre'].
          destruct (IH Hpre _ Heq Hpre') as [-> ->]. done. }
      rewrite Hd in Hd'. injection Hd' as <-. done.
    + apply ToASCII_loop_None in Hloop. rewrite Hsplit in Hloop.
      apply Forall2_app_inv_l in Hloop as (? & ? & _ & Hrest & _).
      apply Forall2_cons_inv_l in Hrest as (? & ? & Hd' & _). congruence.
Qed.

Lemma addOrEditDDNS_refuses_bad_profile_witness :
  memberAPI.addOrEditDDNS plain_ToASCII (λ _, None) (λ _, None) (Ok eager_ddns)
    = [memberAPI.Reply (model.Response.mk http.StatusBadRequest
         ("请求错误：" +:+ "重试次数必须为大于 1 且不超过 10 的整数") [])]
  ∧ memberAPI.addOrEditDDNS plain_ToASCII (λ _, None) (λ _, None) (Ok mistyped_ddns)
    = [memberAPI.Reply (model.Response.mk http.StatusBadRequest
         ("请求错误：" +:+ ("域名 " +:+ "b!.example" +:+ " 解析错误: "
                            +:+ "idna: disallowed rune U+0021")) [])].
Proof.
  split.
  - apply (proj1 (addOrEditDDNS_refuses_bad_profile plain_ToASCII
                    (λ _, None) (λ _, None) eager_ddns)).
    right. cbn. lia.
  - apply (proj2 (addOrEditDDNS_refuses_bad_profile plain_ToASCII
                    (λ _, None) (λ _, None) mistyped_ddns)
             ["a.example"] "b!.example" ["c.example"] "idna: disallowed rune U+0021").
    + cbn. lia.
    + reflexivity.
    + repeat constructor. by exists "a.example".
    + reflexivity.
Defined.

Lemma persists_conclude {Row} (done : list (memberAPI.Effect Row)) (err : error)
    (callback : memberAPI.Collaborator) :
  persists (memberAPI.conclude done err callback) = persists done.
Proof.
  unfold persists, memberAPI.conclude.
  destruct err; rewrite existsb_app; cbn; by rewrite orb_false_r.
Qed.

Lemma calls_conclude {Row} (c : memberAPI.Collaborator → bool)
    (done : list (memberAPI.Effect Row)) (err : error) (callback : memberAPI.Collaborator) :
  calls c (memberAPI.conclude done err callback)
    = calls c done || (match err with Some _ => false | None => c callback end).
Proof.
  unfold calls, memberAPI.conclude.
  destruct err; rewrite existsb_app; cbn; by rewrite ?orb_false_r.
Qed.

Lemma persists_persist {Row} (db_create db_save : Row → error) (id : uint64) (row : Row)
    (before : list (memberAPI.Effect Row)) :
  persists (before ++ [(memberAPI.persist db_create db_save id row).1]) = true.
Proof.
  unfold persists, memberAPI.persist. rewrite existsb_app.
  destruct (id =? 0); cbn; by rewrite orb_true_r.
Qed.

(** X20: a notification is written to the database exactly when its check
    was skipped (SkipCheck is "on") or the test message went out without
    error; the test message is sent exactly when the check is not skipped,
    and then before anything is written. *)
Theorem addOrEditNotification_persists_only_checked (send : memberAPI.Notification → error)
    (db_create db_save : memberAPI.Notification → error) (nf : memberAPI.notificationForm) :
  let effs := memberAPI.addOrEditNotification send db_create db_save (Ok nf) in
  let n := memberAPI.mkNotification (memberAPI.nf_ID nf) (memberAPI.nf_Name nf)
             (memberAPI.nf_URL nf) (memberAPI.nf_RequestMethod nf)
             (memberAPI.nf_RequestType nf) (memberAPI.nf_RequestHeader nf)
             (memberAPI.nf_RequestBody nf) (String.eqb (memberAPI.nf_VerifySSL nf) "on") in
  (persists effs = true ↔ memberAPI.nf_SkipCheck nf = "on" ∨ send n = None)
  ∧ (calls is_test_message effs = true ↔ memberAPI.nf_SkipCheck nf ≠ "on")
  ∧ (memberAPI.nf_SkipCheck nf ≠ "on" →
       ∃ rest, effs = memberAPI.Call (memberAPI.NotificationSend "这是测试消息") (send n) :: rest).
Proof.
  intros effs n. subst effs. unfold memberAPI.addOrEditNotification. fold n.
  destruct (String.eqb_spec (memberAPI.nf_SkipCheck nf) "on") as [Hskip|Hskip].
  - cbn [app]. destruct (memberAPI.persist _ _ _ _) as [eff err] eqn:Hp.
    rewrite persists_conclude, calls_conclude.
    pose proof (persists_persist db_create db_save (memberAPI.n_ID n) n []) as Hper.
    rewrite Hp in Hper. cbn [app fst] in Hper.
    split; [|split].
    + split; [by left | done].
    + assert (Hno : calls is_test_message [eff] = false).
      { unfold memberAPI.persist in Hp. destruct (_ =? 0); injection Hp as <- _; done. }
      rewrite Hno. destruct err; cbn; split; done.
    + done.
  - destruct (send n) as [e|] eqn:Hsend.
    + rewrite persists_conclude, calls_conclude.
      split; [|split].
      * cbn. split; [done | intros [?|?]; done].
      * cbn. split; done.
      * unfold memberAPI.conclude. cbn [app]. by eexists.
    + destruct (memberAPI.persist _ _ _ _) as [eff err] eqn:Hp.
      rewrite persists_conclude, calls_conclude.
      pose proof (persists_persist db_create db_save (memberAPI.n_ID n) n
                    [memberAPI.Call (memberAPI.NotificationSend "这是测试消息") None]) as Hper.
      rewrite Hp in Hper. cbn [fst] in Hper.
      split; [|split].
      * split; [by right | done].
      * cbn. split; done.
      * unfold memberAPI.conclude. destruct err; cbn [app]; by eexists.
Qed.



(** X22: once the settings form binds, the configuration in memory takes the
    values of the form whether or not saving it succeeds, its notification
    tag is never empty ("default" stands in for an empty one), the rest of
    the configuration is untouched, and the name servers are refreshed
    exactly when the save succeeded. *)
Theorem updateSetting_replaces_configuration {Rest} (save : memberAPI.Config Rest → error)
    (sf : memberAPI.settingForm) (Conf : memberAPI.Config Rest) :
  let Conf' := (memberAPI.updateSetting save (Ok sf) Conf).1 in
  let effs := (memberAPI.updateSetting save (Ok sf) Conf).2 in
  memberAPI.IPChangeNotificationTag Conf' ≠ ""
  ∧ (memberAPI.sf_IPChangeNotificationTag sf ≠ "" →
       memberAPI.IPChangeNotificationTag Conf' = memberAPI.sf_IPChangeNotificationTag sf)
  ∧ (memberAPI.Language Conf', memberAPI.SiteName Conf', memberAPI.DNSServers Conf',
     memberAPI.InstallHost Conf', memberAPI.IgnoredIPNotification Conf', memberAPI.Cover Conf')
    = (memberAPI.sf_Language sf, memberAPI.sf_SiteName sf, memberAPI.sf_CustomNameservers sf,
       memberAPI.sf_InstallHost sf, memberAPI.sf_IgnoredIPNotification sf, memberAPI.sf_Cover sf)
  ∧ (memberAPI.EnableIPChangeNotification Conf' = true
       ↔ memberAPI.sf_EnableIPChangeNotification sf = "on")
  ∧ (memberAPI.EnablePlainIPInNotification Conf' = true
       ↔ memberAPI.sf_EnablePlainIPInNotification sf = "on")
  ∧ memberAPI.rest Conf' = memberAPI.rest Conf
  ∧ (∀ save', (memberAPI.updateSetting save' (Ok sf) Conf).1 = Conf')
  ∧ (calls is_nameserver_update effs = true ↔ save Conf' = None).
Proof.
  intros Conf' effs.
  assert (Hconf : ∀ save', (memberAPI.updateSetting save' (Ok sf) Conf).1
    = memberAPI.mkConfig (memberAPI.sf_Language sf)
        (String.eqb (memberAPI.sf_EnableIPChangeNotification sf) "on")
        (String.eqb (memberAPI.sf_EnablePlainIPInNotification sf) "on")
        (memberAPI.sf_Cover sf) (memberAPI.sf_InstallHost sf)
        (memberAPI.sf_IgnoredIPNotification sf)
        (if String.eqb (memberAPI.sf_IPChangeNotificationTag sf) "" then "default"
         else memberAPI.sf_IPChangeNotificationTag sf)
        (memberAPI.sf_SiteName sf) (memberAPI.sf_CustomNameservers sf)
        (memberAPI.rest Conf)).
  { intros save'. unfold memberAPI.updateSetting. by destruct (save' _). }
  subst Conf' effs. rewrite !Hconf. cbn [memberAPI.IPChangeNotificationTag
    memberAPI.Language memberAPI.SiteName memberAPI.DNSServers memberAPI.InstallHost
    memberAPI.IgnoredIPNotification memberAPI.Cover memberAPI.EnableIPChangeNotification
    memberAPI.EnablePlainIPInNotification memberAPI.rest].
  split; [|split; [|split; [|split; [|split; [|split; [|split]]]]]]; try done.
  all: try apply String.eqb_eq.
  - destruct (String.eqb_spec (memberAPI.sf_IPChangeNotificationTag sf) ""); done.
  - intros Hne. destruct (String.eqb_spec (memberAPI.sf_IPChangeNotificationTag sf) ""); done.
  - unfold memberAPI.updateSetting.
    match goal with |- context [save ?c] => destruct (save c) end; done.
Qed.

(** ** The websocket of a file-manager session *)



